(** * imgbb-full: the ImgBB client of [src/index.ts]

    A shallow embedding of the client module: the process-wide credentials,
    the multipart bodies built for the upload and delete operations, the
    request that [apiRequest] hands to [fetch], and the regular expression
    behind [getImageIdByUrl].

    Conventions.
    - A JavaScript string is a [string]; each character stands for one code
      unit in the range 0..255.
    - A value of type [string | undefined] is an [option string], [None]
      being [undefined].
    - An [async] function is a computation in the monad [M]: it reads and
      writes the module's globals, may call the transport, and either
      returns or throws. *)

From Stdlib Require Import String Ascii List ZArith Bool Lia.
From Stdlib Require Import DecimalString.
From Stdlib Require DecimalZ DecimalPos.
Import ListNotations.
Local Open Scope list_scope.
Local Open Scope string_scope.
Set Warnings "-register-all".

(** ** JavaScript values the module handles *)

Module Js.

(** Truthiness of a [string | undefined]. *)
Definition truthy (o : option string) : bool :=
  match o with
  | Some s => negb (s =? "")
  | None => false
  end.

(** [a || b] where both sides are [string | undefined]. *)
Definition or_else (a b : option string) : option string :=
  if truthy a then a else b.

(** [a || "literal"]. *)
Definition or_str (a : option string) (b : string) : string :=
  match a with
  | Some s => if s =? "" then b else s
  | None => b
  end.

(** A [string | undefined] inside a template literal. *)
Definition template (o : option string) : string :=
  match o with
  | Some s => s
  | None => "undefined"
  end.

(** [n.toString()] for an integral number. *)
Definition string_of_Z (z : Z) : string :=
  NilZero.string_of_int (Z.to_int z).

(** What a [throw] carries: the constructor used and its message. *)
Inductive Exn : Type :=
| Error (message : string)
| TypeError (message : string)
| SyntaxError (message : string).

(** The result of [JSON.parse]. A number is kept as the text that
    JavaScript prints for it; both zeros print as "0". *)
Inductive Value : Type :=
| Null
| Bool (b : bool)
| Num (shown : string)
| Str (s : string)
| Arr (items : list Value)
| Obj (props : list (string * Value)).

(** Own property of an object, by name. *)
Fixpoint lookup (k : string) (props : list (string * Value)) : option Value :=
  match props with
  | [] => None
  | (n, v) :: rest => if n =? k then Some v else lookup k rest
  end.

(** [v?.k] for [k] one of the names read by this module ("error",
    "message"): [None] is [undefined]. Primitives and arrays have no such
    property. *)
Definition opt_get (v : option Value) (k : string) : option Value :=
  match v with
  | Some (Obj props) => lookup k props
  | _ => None
  end.

Definition value_truthy (v : option Value) : bool :=
  match v with
  | None | Some Null => false
  | Some (Bool b) => b
  | Some (Num shown) => negb (shown =? "0")
  | Some (Str s) => negb (s =? "")
  | Some (Arr _) | Some (Obj _) => true
  end.

(** String conversion inside a template literal; [None] is the
    [TypeError] thrown when the value has no primitive form. An array is
    joined with commas, [null] elements printing as nothing. A plain object
    prints through [Object.prototype.toString], unless it has an own
    [toString] property: a parsed value is never callable, so that property
    hides the inherited method and the conversion fails. *)
Fixpoint to_string (v : Value) : option string :=
  match v with
  | Null => Some "null"
  | Bool true => Some "true"
  | Bool false => Some "false"
  | Num shown => Some shown
  | Str s => Some s
  | Arr items =>
      (fix join (l : list Value) : option string :=
         match l with
         | [] => Some ""
         | x :: rest =>
             match (match x with Null => Some "" | _ => to_string x end) with
             | None => None
             | Some here =>
                 match rest with
                 | [] => Some here
                 | _ :: _ =>
                     match join rest with
                     | Some more => Some (here ++ "," ++ more)
                     | None => None
                     end
                 end
             end
         end) items
  | Obj props =>
      match lookup "toString" props with
      | Some _ => None
      | None => Some "[object Object]"
      end
  end.

(** [v || "literal"] inside a template literal; [None] as for
    [to_string]. *)
Definition value_or_str (v : option Value) (b : string) : option string :=
  match v with
  | Some x => if value_truthy v then to_string x else Some b
  | None => Some b
  end.

(** An object property that a spread copies: the key may be missing, or
    present with a value that may itself be [undefined]. *)
Inductive Field (T : Type) : Type :=
| Absent
| Present (v : option T).
Arguments Absent {T}.
Arguments Present {T} v.

(** Reading [o.k]. *)
Definition read {T} (f : Field T) : option T :=
  match f with
  | Absent => None
  | Present v => v
  end.

(** The key [k] of [{ k: d, ...o }]. *)
Definition spread_over {T} (d : option T) (f : Field T) : Field T :=
  match f with
  | Absent => Present d
  | Present v => Present v
  end.

End Js.
Import Js.

(** ** Blobs and multipart bodies *)

Definition Buffer := list Byte.byte.

Record Blob : Type := mkBlob {
  blob_bytes : list Byte.byte;
  blob_type : string
}.

(** [new Blob([bytes], { type })]. *)
Definition new_Blob (bytes : Buffer) (type : option string) : Blob :=
  {| blob_bytes := bytes; blob_type := match type with Some t => t | None => "" end |}.

Module FormData.

Inductive Value : Type :=
| Text (s : string)
| File (b : Blob) (filename : string).

Definition Entry : Type := string * Value.

(** The entry list, in insertion order. *)
Definition t : Type := list Entry.

Definition empty : t := [].

Definition named (name : string) (e : Entry) : bool := fst e =? name.

Definition others (name : string) (fd : t) : t :=
  filter (fun e => negb (named name e)) fd.

(** [fd.set(name, value)]: the first entry called [name] is replaced and
    the other entries of that name are removed; with no such entry the
    new one goes last. *)
Fixpoint set (name : string) (v : Value) (fd : t) : t :=
  match fd with
  | [] => [(name, v)]
  | e :: rest =>
      if named name e then (name, v) :: others name rest
      else e :: set name v rest
  end.

(** [fd.getAll(name)]. *)
Definition getAll (name : string) (fd : t) : list Value :=
  map snd (filter (named name) fd).

(** [fd.get(name)]. *)
Definition get (name : string) (fd : t) : option Value :=
  hd_error (getAll name fd).

(** The file name of [fd.set(name, blob, filename)]: the third argument
    is always passed, and converted to a string as it is. *)
Definition file_name (filename : option string) : string :=
  match filename with
  | Some n => n
  | None => "undefined"
  end.

End FormData.

(** ** The transport and the module's state *)

Inductive Result (A : Type) : Type :=
| Ok (a : A)
| Throw (e : Exn).
Arguments Ok {A} a.
Arguments Throw {A} e.

Record Headers : Type := mkHeaders {
  hdr_cookie : option string;
  hdr_origin : string
}.

(** The two arguments of [fetch(url, init)]. *)
Record Request : Type := mkRequest {
  req_url : string;
  req_method : string;
  req_body : FormData.t;
  req_headers : Headers
}.

(** What the client reads of a [Response]: its status, and what its
    [json()] method settles to (it rejects when the body is not JSON). *)
Record Response : Type := mkResponse {
  status : Z;
  json : Result Js.Value
}.

(** [resp.ok]. *)
Definition ok (r : Response) : bool :=
  (200 <=? status r)%Z && (status r <=? 299)%Z.

(** [let IMGBB_KEY], [let IMGBB_COOKIE], [let IMGBB_USERNAME]. *)
Record Globals : Type := mkGlobals {
  IMGBB_KEY : option string;
  IMGBB_COOKIE : option string;
  IMGBB_USERNAME : option string
}.

(** The globals, the clock read by [Date.now()], and every request handed to
    the transport so far, oldest first. *)
Record World : Type := mkWorld {
  globals : Globals;
  clock : Z;
  sent : list Request
}.

Definition M (A : Type) : Type := World -> Result A * World.

Definition ret {A} (a : A) : M A := fun w => (Ok a, w).

Definition throw {A} (e : Exn) : M A := fun w => (Throw e, w).

Definition bind {A B} (m : M A) (k : A -> M B) : M B :=
  fun w =>
    match m w with
    | (Ok a, w') => k a w'
    | (Throw e, w') => (Throw e, w')
    end.

Notation "x <- m ;; k" := (bind m (fun x => k))
  (at level 61, m at next level, right associativity).
Notation "m ;; k" := (bind m (fun _ => k))
  (at level 61, right associativity).

Definition read_globals : M Globals := fun w => (Ok (globals w), w).

Definition Date_now : M Z := fun w => (Ok (clock w), w).

(** [await resp.json()]. *)
Definition await_json (resp : Response) : M Js.Value := fun w => (json resp, w).

Definition host : string := "imgbb.com".
Definition website : string := "https://" ++ host.
Definition endpoint : string := "/json".

Inductive ImageUploadExpiration : Type :=
| OneHour
| SixMonths
| Never.

(** The string each member of the enum is at run time. *)
Definition wire (e : ImageUploadExpiration) : string :=
  match e with
  | OneHour => "PT1H"
  | SixMonths => "P6M"
  | Never => ""
  end.

Inductive Image : Type :=
| OfBlob (b : Blob)
| OfBuffer (b : Buffer).

Module ImageUploadOptions.
Record t : Type := mk {
  image : Image;
  username : Field string;
  expiration : Field ImageUploadExpiration;
  album : Field string;
  name : Field string
}.
End ImageUploadOptions.

Module ApiOptions.
Record t : Type := mk {
  body : FormData.t;
  username : option string;
  cookie : option string;
  origin : option string;
  endpoint : option string;
  endpointUseOrigin : option bool
}.

(** [{ body }]. *)
Definition of_body (b : FormData.t) : t :=
  mk b None None None None None.
End ApiOptions.

Module ApiConfig.
Record t : Type := mk {
  key : option string;
  cookie : option string;
  username : option string
}.
End ApiConfig.

(** The argument of [removeImages]: [string[] | string]. *)
Inductive ImageIds : Type :=
| One (id : string)
| Many (ids : list string).

(** [id.length]. *)
Definition ids_length (id : ImageIds) : nat :=
  match id with
  | One s => String.length s
  | Many l => List.length l
  end.

(** [blob instanceof Blob], for a value already known to be a blob. *)
Definition instanceof_Blob (_ : Blob) : bool := true.

(** [config]: one destructuring assignment to the three globals. *)
Definition config (c : ApiConfig.t) : M unit :=
  fun w =>
    (Ok tt,
     {| globals := {| IMGBB_KEY := ApiConfig.key c;
                      IMGBB_COOKIE := ApiConfig.cookie c;
                      IMGBB_USERNAME := ApiConfig.username c |};
        clock := clock w;
        sent := sent w |}).

Definition ensureCreds : M unit :=
  g <- read_globals ;;
  if negb (truthy (IMGBB_KEY g))
     || negb (truthy (IMGBB_COOKIE g))
     || negb (truthy (IMGBB_USERNAME g))
  then throw (Error "ImgBB credentials not configured, please use config()")
  else ret tt.

Section Client.

(** What the network answers to a request: a response, or a rejection. *)
Variable transport : Request -> Result Response.

(** [getType] of the mime package: [None] is [null]. *)
Variable getType : string -> option string.

(** [await fetch(url, init)]: the request is recorded, then answered. *)
Definition fetch (r : Request) : M Response :=
  fun w =>
    (transport r,
     {| globals := globals w; clock := clock w; sent := sent w ++ [r] |}).

Definition apiRequest (opts : ApiOptions.t) : M Response :=
  ensureCreds ;;
  g <- read_globals ;;
  let origin :=
    or_str (ApiOptions.origin opts)
      ("https://"
         ++ template (or_else (ApiOptions.username opts) (IMGBB_USERNAME g))
         ++ "." ++ host) in
  resp <- fetch
    {| req_url :=
         or_str (ApiOptions.endpoint opts)
           ((match ApiOptions.endpointUseOrigin opts with
             | Some true => origin
             | _ => website
             end) ++ endpoint);
       req_method := "POST";
       req_body := ApiOptions.body opts;
       req_headers :=
         {| hdr_cookie := or_else (ApiOptions.cookie opts) (IMGBB_COOKIE g);
            hdr_origin := origin |} |} ;;
  if negb (ok resp) then
    data <- await_json resp ;;
    match value_or_str
            (opt_get (opt_get (Some data) "error") "message")
            "no error message provided" with
    | Some m =>
        throw (Error
          ("response status " ++ string_of_Z (status resp) ++ ": " ++ m))
    | None => throw (TypeError "Cannot convert object to primitive value")
    end
  else ret resp.

Definition uploadImage (opts : ImageUploadOptions.t) : M Js.Value :=
  ensureCreds ;;
  g <- read_globals ;;
  let opts :=
    ImageUploadOptions.mk
      (ImageUploadOptions.image opts)
      (spread_over (IMGBB_USERNAME g) (ImageUploadOptions.username opts))
      (spread_over (Some SixMonths) (ImageUploadOptions.expiration opts))
      (ImageUploadOptions.album opts)
      (spread_over (Some "image.png") (ImageUploadOptions.name opts)) in
  let type :=
    or_else (getType (or_str (read (ImageUploadOptions.name opts)) "")) None in
  let blob :=
    match ImageUploadOptions.image opts with
    | OfBlob b => b
    | OfBuffer bytes => new_Blob bytes type
    end in
  if negb (instanceof_Blob blob) then
    throw (TypeError "opts.image is not a blob")
  else
    let body := FormData.empty in
    let body := FormData.set "action" (FormData.Text "upload") body in
    let body :=
      FormData.set "album_id"
        (FormData.Text (or_str (read (ImageUploadOptions.album opts)) "")) body in
    let body :=
      FormData.set "auth_token" (FormData.Text (template (IMGBB_KEY g))) body in
    let body :=
      FormData.set "expiration"
        (FormData.Text
           (or_str (option_map wire (read (ImageUploadOptions.expiration opts))) ""))
        body in
    let body :=
      FormData.set "source"
        (FormData.File blob
           (FormData.file_name (read (ImageUploadOptions.name opts))))
        body in
    now <- Date_now ;;
    let body := FormData.set "timestamp" (FormData.Text (string_of_Z now)) body in
    let body := FormData.set "type" (FormData.Text "file") body in
    resp <- apiRequest (ApiOptions.of_body body) ;;
    data <- await_json resp ;;
    ret data.

(** The body that [removeImages] builds once [id] is known not to be
    empty; [key] is [IMGBB_KEY]. *)
Definition delete_body (key : option string) (id : ImageIds) : FormData.t :=
  let body := FormData.empty in
  let body := FormData.set "action" (FormData.Text "delete") body in
  let body := FormData.set "auth_token" (FormData.Text (template key)) body in
  match id with
  | One id =>
      let body := FormData.set "single" (FormData.Text "true") body in
      let body := FormData.set "delete" (FormData.Text "image") body in
      FormData.set "deleting[id]" (FormData.Text id) body
  | Many ids =>
      let body := FormData.set "from" (FormData.Text "list") body in
      let body := FormData.set "multiple" (FormData.Text "true") body in
      let body := FormData.set "delete" (FormData.Text "images") body in
      fold_left
        (fun body i => FormData.set "deleting[ids][]" (FormData.Text i) body)
        ids body
  end.

(** [None] is the [undefined] of the bare [return]. *)
Definition removeImages (id : ImageIds) : M (option Js.Value) :=
  ensureCreds ;;
  if Nat.eqb (ids_length id) 0 then ret None
  else
    g <- read_globals ;;
    resp <- apiRequest
      (ApiOptions.mk (delete_body (IMGBB_KEY g) id) None None None None (Some true)) ;;
    data <- await_json resp ;;
    ret (Some data).

End Client.

(** ** Regular expressions

    Matchers in continuation-passing style, after the semantics of
    ECMA-262: a matcher takes the state reached so far and a continuation
    for the rest of the pattern, and backtracks when the continuation
    fails. Only what the pattern of [getImageIdByUrl] uses is here:
    characters, [.], [\w], [^], one capture group, and the greedy
    quantifiers [?] and [+] on a single character. *)

Module RegExp.

Local Open Scope nat_scope.

Record State : Type := mkState {
  endIndex : nat;              (* how many characters lie behind *)
  rest : list ascii;           (* the input from [endIndex] on *)
  capture1 : option (list ascii)
}.

Definition Continuation : Type := State -> option State.
Definition Matcher : Type := State -> Continuation -> option State.

Definition is_upper (c : ascii) : bool :=
  (65 <=? nat_of_ascii c) && (nat_of_ascii c <=? 90).
Definition is_lower (c : ascii) : bool :=
  (97 <=? nat_of_ascii c) && (nat_of_ascii c <=? 122).
Definition is_digit (c : ascii) : bool :=
  (48 <=? nat_of_ascii c) && (nat_of_ascii c <=? 57).

(** Canonicalize under the [i] flag, as far as a comparison with an ASCII
    pattern character can tell: a code unit of 128 or more is never
    mapped below 128, so only the letters a-z fold. *)
Definition canonicalize (c : ascii) : ascii :=
  if is_lower c then ascii_of_nat (nat_of_ascii c - 32) else c.

(** A pattern character, under the [i] flag. *)
Definition lit_i (p : ascii) (c : ascii) : bool :=
  Ascii.eqb (canonicalize c) (canonicalize p).

(** [.]: anything but a line terminator. *)
Definition dot (c : ascii) : bool :=
  negb (Nat.eqb (nat_of_ascii c) 10 || Nat.eqb (nat_of_ascii c) 13).

(** [\w]. *)
Definition word (c : ascii) : bool :=
  is_upper c || is_lower c || is_digit c || Ascii.eqb c "_".

(** One character of the class [p]. *)
Definition char (p : ascii -> bool) : Matcher :=
  fun x c =>
    match rest x with
    | [] => None
    | ch :: r =>
        if p ch then c (mkState (S (endIndex x)) r (capture1 x)) else None
    end.

Definition seq (m1 m2 : Matcher) : Matcher :=
  fun x c => m1 x (fun y => m2 y c).

Definition empty : Matcher := fun x c => c x.

(** [^] without the [m] flag. *)
Definition bol : Matcher :=
  fun x c => if Nat.eqb (endIndex x) 0 then c x else None.

(** [p?], greedy. *)
Definition opt (p : ascii -> bool) : Matcher :=
  fun x c =>
    match char p x c with
    | Some y => Some y
    | None => c x
    end.

(** [p*], greedy: the longest run first, then shorter ones. *)
Fixpoint star_on (p : ascii -> bool) (i : nat) (r : list ascii)
    (cap : option (list ascii)) (c : Continuation) : option State :=
  match r with
  | ch :: r' =>
      if p ch then
        match star_on p (S i) r' cap c with
        | Some y => Some y
        | None => c (mkState i r cap)
        end
      else c (mkState i r cap)
  | [] => c (mkState i r cap)
  end.

Definition star (p : ascii -> bool) : Matcher :=
  fun x c => star_on p (endIndex x) (rest x) (capture1 x) c.

(** [p+], greedy. *)
Definition plus (p : ascii -> bool) : Matcher := seq (char p) (star p).

(** [(m)], the first capture group. *)
Definition group (m : Matcher) : Matcher :=
  fun x c =>
    m x (fun y =>
           c (mkState (endIndex y) (rest y)
                (Some (firstn (endIndex y - endIndex x) (rest x))))).

(** A run of pattern characters. *)
Fixpoint lits_i (s : string) : Matcher :=
  match s with
  | EmptyString => empty
  | String p s' => seq (char (lit_i p)) (lits_i s')
  end.

Fixpoint seqs (ms : list Matcher) : Matcher :=
  match ms with
  | [] => empty
  | m :: ms' => seq m (seqs ms')
  end.

(** The search of a pattern without the [g] and [y] flags: every start
    index in turn, from 0. *)
Fixpoint exec_from (m : Matcher) (i : nat) (r : list ascii) : option State :=
  match m (mkState i r None) (fun y => Some y) with
  | Some y => Some y
  | None =>
      match r with
      | [] => None
      | _ :: r' => exec_from m (S i) r'
      end
  end.

(** [s.match(re)?.[1]]: [None] when there is no match or the group did
    not take part. *)
Definition match_group1 (m : Matcher) (s : string) : option string :=
  match exec_from m 0 (list_ascii_of_string s) with
  | Some y => option_map string_of_list_ascii (capture1 y)
  | None => None
  end.

End RegExp.

(** [/^https?:\/\/i.ibb.co\/(\w+)\//i] *)
Definition cdn_pattern : RegExp.Matcher :=
  RegExp.seqs
    [ RegExp.bol;
      RegExp.lits_i "http";
      RegExp.opt (RegExp.lit_i "s");
      RegExp.lits_i "://i";
      RegExp.char RegExp.dot;
      RegExp.lits_i "ibb";
      RegExp.char RegExp.dot;
      RegExp.lits_i "co/";
      RegExp.group (RegExp.plus RegExp.word);
      RegExp.lits_i "/" ].

(** The argument of [getImageIdByUrl]: a string, or a user, of which only
    the [image] property is read. *)
Inductive UrlOrUser : Type :=
| OfString (url : string)
| OfUser (image : option string).

(** [None] is [null]. *)
Definition getImageIdByUrl (urlOrUser : UrlOrUser) : option string :=
  let url :=
    match urlOrUser with
    | OfString s => Some s
    | OfUser image => image
    end in
  match url with
  | None => None
  | Some s =>
      if negb (truthy url) then None
      else or_else (RegExp.match_group1 cdn_pattern s) None
  end.

(** ** Vocabulary of the properties *)

(** All three credentials are set and not empty. *)
Definition configured (w : World) : Prop :=
  truthy (IMGBB_KEY (globals w)) = true
  /\ truthy (IMGBB_COOKIE (globals w)) = true
  /\ truthy (IMGBB_USERNAME (globals w)) = true.

(** At least one credential is absent or empty. *)
Definition missing_credential (w : World) : Prop :=
  truthy (IMGBB_KEY (globals w)) = false
  \/ truthy (IMGBB_COOKIE (globals w)) = false
  \/ truthy (IMGBB_USERNAME (globals w)) = false.

(** The error of [ensureCreds]. *)
Definition not_configured : Exn :=
  Error "ImgBB credentials not configured, please use config()".

(** The world after one more request went to the transport. *)
Definition after_request (w : World) (r : Request) : World :=
  {| globals := globals w; clock := clock w; sent := sent w ++ [r] |}.

(** [data?.error?.message] *)
Definition vendor_message (data : Js.Value) : option Js.Value :=
  opt_get (opt_get (Some data) "error") "message".

(** The error thrown for a response that is not [ok] whose body is [data]. *)
Definition api_error (resp : Response) (data : Js.Value) : Exn :=
  match value_or_str (vendor_message data) "no error message provided" with
  | Some m => Error ("response status " ++ string_of_Z (status resp) ++ ": " ++ m)
  | None => TypeError "Cannot convert object to primitive value"
  end.

(** How a call of [apiRequest] ends, given the answer to its request. *)
Definition settle (answer : Result Response) : Result Response :=
  match answer with
  | Throw e => Throw e
  | Ok resp =>
      if ok resp then Ok resp
      else
        match json resp with
        | Ok data => Throw (api_error resp data)
        | Throw e => Throw e
        end
  end.

(** An operation that received the non-[ok] response [resp] ended in [r].
    With a JSON body: in the error that names the status and then the
    vendor's message when that is a non-empty string, or the placeholder
    when it is missing or falsy; any other message is converted to a string
    first, and the [TypeError] of a failed conversion is thrown in place of
    the error. With a body that is not JSON: in the rejection of
    [json()]. *)
Definition fails_on_response {A} (resp : Response) (r : Result A) : Prop :=
  (forall data, json resp = Ok data ->
     (forall v, vendor_message data = Some (Str v) -> v <> "" ->
        r = Throw (Error ("response status " ++ string_of_Z (status resp)
                            ++ ": " ++ v)))
     /\ (value_truthy (vendor_message data) = false ->
         r = Throw (Error ("response status " ++ string_of_Z (status resp)
                             ++ ": no error message provided")))
     /\ (forall x, vendor_message data = Some x ->
           value_truthy (Some x) = true ->
           r = match to_string x with
               | Some m =>
                   Throw (Error ("response status " ++ string_of_Z (status resp)
                                   ++ ": " ++ m))
               | None =>
                   Throw (TypeError "Cannot convert object to primitive value")
               end))
  /\ (forall e, json resp = Throw e -> r = Throw e).

(** *** What a matcher consumes *)

(** From [x] to [x']: the characters [l], which satisfy [P], were
    consumed, and the capture was left alone. *)
Definition consumes (P : list ascii -> Prop) (x x' : RegExp.State) : Prop :=
  exists l,
    P l
    /\ RegExp.rest x = (l ++ RegExp.rest x')%list
    /\ RegExp.endIndex x' = RegExp.endIndex x + List.length l
    /\ RegExp.capture1 x' = RegExp.capture1 x.

(** Whenever [m] succeeds, it went through a state related to the start by
    [R] and the continuation succeeded from there. *)
Definition sound (m : RegExp.Matcher) (R : RegExp.State -> RegExp.State -> Prop) : Prop :=
  forall x c y, m x c = Some y -> exists x', R x x' /\ c x' = Some y.

(** The input [r] is at its end, or its next character is outside the
    class [p]. *)
Definition stops (p : ascii -> bool) (r : list ascii) : Prop :=
  match r with
  | [] => True
  | ch :: _ => p ch = false
  end.

(** [l] is the text [s] up to the case of letters. *)
Definition spells_i (s : string) (l : list ascii) : Prop :=
  Forall2 (fun p ch => RegExp.lit_i p ch = true) (list_ascii_of_string s) l.

(** The addresses that [cdn_pattern] accepts, with the segment it captures:
    [d1] and [d2] are the characters found where the pattern has its dots. *)
Definition cdn_shape (url id : string) : Prop :=
  exists http s sep d1 ibb d2 co seg slash tail,
    list_ascii_of_string url
    = (http ++ s ++ sep ++ d1 :: ibb ++ d2 :: co ++ seg ++ slash ++ tail)%list
    /\ spells_i "http" http
    /\ (s = [] \/ spells_i "s" s)
    /\ spells_i "://i" sep
    /\ RegExp.dot d1 = true
    /\ spells_i "ibb" ibb
    /\ RegExp.dot d2 = true
    /\ spells_i "co/" co
    /\ seg <> []
    /\ forallb RegExp.word seg = true
    /\ spells_i "/" slash
    /\ id = string_of_list_ascii seg.

(** ** Sample worlds and transports *)

Definition sample_world : World :=
  {| globals := {| IMGBB_KEY := Some "k3y";
                   IMGBB_COOKIE := Some "PHPSESSID=1";
                   IMGBB_USERNAME := Some "alice" |};
     clock := 1700000000000;
     sent := [] |}.

Definition keyless_world : World :=
  {| globals := {| IMGBB_KEY := None;
                   IMGBB_COOKIE := Some "PHPSESSID=1";
                   IMGBB_USERNAME := Some "alice" |};
     clock := 1700000000000;
     sent := [] |}.

(** Every request is answered with [status] and a body that parses to
    [body], or does not parse when [body] is [None]. *)
Definition answer_with (status : Z) (body : option Js.Value) : Request -> Result Response :=
  fun _ =>
    Ok {| status := status;
          json := match body with
                  | Some v => Ok v
                  | None => Throw (SyntaxError "Unexpected token < in JSON at position 0")
                  end |}.

(** [{"error":{"message":"bad token"}}] *)
Definition bad_token : Js.Value :=
  Obj [("error", Obj [("message", Str "bad token")])].

Definition png_only : string -> option string :=
  fun name => if name =? "image.png" then Some "image/png" else None.

Definition sample_upload : ImageUploadOptions.t :=
  ImageUploadOptions.mk (OfBuffer [Byte.x89; Byte.x50]) Absent Absent Absent Absent.

(** ** Properties *)

Lemma string_app_assoc (a b c : string) : (a ++ b) ++ c = a ++ (b ++ c).
Proof.
  induction a as [| ch a IH]; cbn; [reflexivity |].
  now rewrite IH.
Qed.

Lemma ensureCreds_configured (w : World) :
  configured w -> ensureCreds w = (Ok tt, w).
Proof.
  intros (Hk & Hc & Hu).
  unfold ensureCreds, bind, read_globals.
  now rewrite Hk, Hc, Hu.
Qed.

Lemma ensureCreds_missing (w : World) :
  missing_credential w -> ensureCreds w = (Throw not_configured, w).
Proof.
  intros H.
  unfold ensureCreds, bind, read_globals.
  destruct H as [H | [H | H]]; rewrite H; simpl;
    rewrite ?orb_true_r; reflexivity.
Qed.

Section ClientProperties.

Variable transport : Request -> Result Response.
Variable getType : string -> option string.

(** With credentials in place [apiRequest] hands exactly one request to
    the transport, and ends as the answer dictates. *)
Lemma apiRequest_configured (opts : ApiOptions.t) (w : World) :
  configured w ->
  exists req,
    apiRequest transport opts w = (settle (transport req), after_request w req)
    /\ req_body req = ApiOptions.body opts
    /\ req_method req = "POST"
    /\ hdr_cookie (req_headers req)
       = or_else (ApiOptions.cookie opts) (IMGBB_COOKIE (globals w))
    /\ hdr_origin (req_headers req)
       = or_str (ApiOptions.origin opts)
           ("https://"
              ++ template (or_else (ApiOptions.username opts)
                             (IMGBB_USERNAME (globals w)))
              ++ "." ++ host)
    /\ req_url req
       = or_str (ApiOptions.endpoint opts)
           ((match ApiOptions.endpointUseOrigin opts with
             | Some true => hdr_origin (req_headers req)
             | _ => website
             end) ++ endpoint).
Proof.
  intros Hc.
  set (origin :=
         or_str (ApiOptions.origin opts)
           ("https://"
              ++ template (or_else (ApiOptions.username opts)
                             (IMGBB_USERNAME (globals w)))
              ++ "." ++ host)).
  exists {| req_url :=
              or_str (ApiOptions.endpoint opts)
                ((match ApiOptions.endpointUseOrigin opts with
                  | Some true => origin
                  | _ => website
                  end) ++ endpoint);
            req_method := "POST";
            req_body := ApiOptions.body opts;
            req_headers :=
              {| hdr_cookie :=
                   or_else (ApiOptions.cookie opts) (IMGBB_COOKIE (globals w));
                 hdr_origin := origin |} |}.
  split; [| cbn; repeat split; reflexivity].
  unfold apiRequest, bind. rewrite (ensureCreds_configured w Hc).
  cbn [read_globals fetch]. fold origin.
  match goal with
  | |- context [transport ?r] => destruct (transport r) as [resp | e]
  end; [| reflexivity].
  cbn [settle]. unfold after_request.
  destruct (ok resp); cbn [negb]; [reflexivity |].
  unfold await_json, throw, api_error, vendor_message.
  destruct (json resp) as [data | e]; [| reflexivity].
  now destruct (value_or_str _ _).
Qed.

(** The fields of an upload, in the order they are set. *)
Lemma uploadImage_configured (opts : ImageUploadOptions.t) (w : World) :
  configured w ->
  exists req,
    uploadImage transport getType opts w
    = (match settle (transport req) with
       | Ok resp => json resp
       | Throw e => Throw e
       end, after_request w req)
    /\ req_url req = "https://imgbb.com/json"
    /\ hdr_origin (req_headers req)
       = "https://" ++ template (IMGBB_USERNAME (globals w)) ++ ".imgbb.com"
    /\ exists source,
        req_body req
        = [ ("action", FormData.Text "upload");
            ("album_id",
             FormData.Text (or_str (read (ImageUploadOptions.album opts)) ""));
            ("auth_token", FormData.Text (template (IMGBB_KEY (globals w))));
            ("expiration",
             FormData.Text
               (or_str
                  (option_map wire
                     (read (spread_over (Some SixMonths)
                              (ImageUploadOptions.expiration opts))))
                  ""));
            ("source", source);
            ("timestamp", FormData.Text (string_of_Z (clock w)));
            ("type", FormData.Text "file") ].
Proof.
  intros Hc.
  unfold uploadImage, bind. rewrite (ensureCreds_configured w Hc).
  cbn [read_globals Date_now instanceof_Blob negb].
  match goal with
  | |- context [apiRequest transport ?o w] =>
      destruct (apiRequest_configured o w Hc)
        as (req & Hrun & Hbody & _ & _ & Horigin & Hurl)
  end.
  exists req. rewrite Hrun. split; [| split; [| split]].
  - destruct (settle (transport req)) as [resp | e]; [| reflexivity].
    unfold await_json, ret. destruct (json resp); reflexivity.
  - rewrite Hurl. reflexivity.
  - rewrite Horigin. reflexivity.
  - eexists. rewrite Hbody. reflexivity.
Qed.

(** The single request of a delete that has something to delete. *)
Lemma removeImages_configured (id : ImageIds) (w : World) :
  configured w ->
  ids_length id <> 0 ->
  exists req,
    removeImages transport id w
    = (match settle (transport req) with
       | Ok resp =>
           match json resp with
           | Ok data => Ok (Some data)
           | Throw e => Throw e
           end
       | Throw e => Throw e
       end, after_request w req)
    /\ req_url req
       = "https://" ++ template (IMGBB_USERNAME (globals w)) ++ ".imgbb.com/json"
    /\ hdr_origin (req_headers req)
       = "https://" ++ template (IMGBB_USERNAME (globals w)) ++ ".imgbb.com"
    /\ req_body req = delete_body (IMGBB_KEY (globals w)) id.
Proof.
  intros Hc Hlen.
  unfold removeImages, bind. rewrite (ensureCreds_configured w Hc).
  destruct (Nat.eqb_spec (ids_length id) 0) as [H0 | _]; [contradiction |].
  cbn [read_globals].
  match goal with
  | |- context [apiRequest transport ?o w] =>
      destruct (apiRequest_configured o w Hc)
        as (req & Hrun & Hbody & _ & _ & Horigin & Hurl)
  end.
  exists req. rewrite Hrun. split; [| split; [| split]].
  - destruct (settle (transport req)) as [resp | e]; [| reflexivity].
    unfold await_json, ret. destruct (json resp); reflexivity.
  - rewrite Hurl, Horigin. cbn.
    destruct (IMGBB_USERNAME (globals w)); cbn; [| reflexivity].
    now rewrite string_app_assoc.
  - rewrite Horigin. reflexivity.
  - rewrite Hbody. reflexivity.
Qed.

End ClientProperties.

Lemma settle_not_ok {A} (resp : Response) (k : Response -> Result A) :
  ok resp = false ->
  fails_on_response resp
    (match settle (Ok resp) with
     | Ok r => k r
     | Throw e => Throw e
     end).
Proof.
  intros Hok. unfold settle. rewrite Hok. split.
  - intros data Hd. rewrite Hd. unfold api_error. split; [| split].
    + intros v Hv Hne. rewrite Hv. cbn.
      destruct (String.eqb_spec v ""); [contradiction | reflexivity].
    + intros Hf. unfold value_or_str. rewrite Hf.
      now destruct (vendor_message data).
    + intros x Hx Ht. rewrite Hx. unfold value_or_str. rewrite Ht.
      now destruct (to_string x).
  - intros e He. now rewrite He.
Qed.

(** C3: when a credential is absent or empty, [apiRequest], [uploadImage]
    and [removeImages] (whatever its argument, the empty sequence included)
    throw the error of [ensureCreds] and leave the world as it was: the
    transport has been given nothing. *)
Theorem credentials_checked_before_network
    (transport : Request -> Result Response) (getType : string -> option string)
    (w : World) :
  missing_credential w ->
  (forall opts, apiRequest transport opts w = (Throw not_configured, w))
  /\ (forall opts, uploadImage transport getType opts w = (Throw not_configured, w))
  /\ (forall id, removeImages transport id w = (Throw not_configured, w)).
Proof.
  intros H. repeat split; intros;
    unfold apiRequest, uploadImage, removeImages, bind;
    now rewrite (ensureCreds_missing w H).
Qed.

Lemma credentials_checked_before_network_witness :
  missing_credential keyless_world
  /\ removeImages (answer_with 200 (Some Null)) (Many []) keyless_world
     = (Throw not_configured, keyless_world)
  /\ sent (snd (uploadImage (answer_with 200 (Some Null)) png_only sample_upload
                  keyless_world)) = [].
Proof.
  assert (H : missing_credential keyless_world) by (left; reflexivity).
  destruct (credentials_checked_before_network
              (answer_with 200 (Some Null)) png_only keyless_world H)
    as (_ & Hu & Hr).
  split; [exact H |]. split; [apply Hr |].
  rewrite Hu. reflexivity.
Defined.

(** C4: with all credentials set, [removeImages([])] returns [undefined]
    and the world is unchanged: no request reached the transport. *)
Theorem removeImages_empty_sequence
    (transport : Request -> Result Response) (w : World) :
  configured w ->
  removeImages transport (Many []) w = (Ok None, w).
Proof.
  intros Hc. unfold removeImages, bind.
  now rewrite (ensureCreds_configured w Hc).
Qed.

Lemma removeImages_empty_sequence_witness :
  configured sample_world
  /\ removeImages (answer_with 200 (Some Null)) (Many []) sample_world
     = (Ok None, sample_world).
Proof.
  assert (H : configured sample_world) by (repeat split; reflexivity).
  split; [exact H |].
  apply (removeImages_empty_sequence (answer_with 200 (Some Null)) sample_world H).
Defined.

(** C10: with all credentials set, [removeImages("")] returns [undefined]
    and the world is unchanged: the length test also stops the empty
    string, before any body is built. *)
Theorem removeImages_empty_string
    (transport : Request -> Result Response) (w : World) :
  configured w ->
  removeImages transport (One "") w = (Ok None, w).
Proof.
  intros Hc. unfold removeImages, bind.
  now rewrite (ensureCreds_configured w Hc).
Qed.

Lemma removeImages_empty_string_witness :
  configured sample_world
  /\ removeImages (answer_with 200 (Some Null)) (One "") sample_world
     = (Ok None, sample_world).
Proof.
  assert (H : configured sample_world) by (repeat split; reflexivity).
  split; [exact H |].
  apply (removeImages_empty_string (answer_with 200 (Some Null)) sample_world H).
Defined.

(** C9: after [config(c)] the three globals are exactly the three
    properties of [c], whatever they were before; a property that [c] lacks
    leaves its global [undefined]. Nothing else changes. *)
Theorem config_replaces_all_three (c : ApiConfig.t) (w : World) :
  fst (config c w) = Ok tt
  /\ globals (snd (config c w))
     = {| IMGBB_KEY := ApiConfig.key c;
          IMGBB_COOKIE := ApiConfig.cookie c;
          IMGBB_USERNAME := ApiConfig.username c |}
  /\ clock (snd (config c w)) = clock w
  /\ sent (snd (config c w)) = sent w.
Proof. repeat split. Qed.

(** C6: the three documented calls of [getImageIdByUrl]: a CDN address
    gives its first path segment, an address on another host gives [null],
    and a user whose [image] is [undefined] gives [null]. *)
Theorem getImageIdByUrl_examples :
  getImageIdByUrl (OfString "https://i.ibb.co/XYZ789/pic.png") = Some "XYZ789"
  /\ getImageIdByUrl (OfString "https://example.com/pic.png") = None
  /\ getImageIdByUrl (OfUser None) = None.
Proof. repeat split; vm_compute; reflexivity. Qed.

(** C7: an upload whose options have no [expiration] key sends the field
    [expiration] as "P6M"; with [expiration: Never] it sends the empty
    string, and with [OneHour] the wire value "PT1H". *)
Theorem upload_expiration_field
    (transport : Request -> Result Response) (getType : string -> option string)
    (opts : ImageUploadOptions.t) (w : World) :
  configured w ->
  exists req,
    sent (snd (uploadImage transport getType opts w)) = (sent w ++ [req])%list
    /\ (ImageUploadOptions.expiration opts = Absent ->
        FormData.getAll "expiration" (req_body req) = [FormData.Text "P6M"])
    /\ (ImageUploadOptions.expiration opts = Present (Some Never) ->
        FormData.getAll "expiration" (req_body req) = [FormData.Text ""])
    /\ (ImageUploadOptions.expiration opts = Present (Some OneHour) ->
        FormData.getAll "expiration" (req_body req) = [FormData.Text "PT1H"])
    /\ wire OneHour = "PT1H".
Proof.
  intros Hc.
  destruct (uploadImage_configured transport getType opts w Hc)
    as (req & Hrun & _ & _ & source & Hbody).
  exists req. rewrite Hrun, Hbody.
  split; [reflexivity |].
  repeat split; intros He; rewrite He; reflexivity.
Qed.

Lemma upload_expiration_field_witness :
  configured sample_world
  /\ exists req,
       sent (snd (uploadImage (answer_with 200 (Some Null)) png_only sample_upload
                    sample_world)) = [req]
       /\ FormData.getAll "expiration" (req_body req) = [FormData.Text "P6M"].
Proof.
  assert (H : configured sample_world) by (repeat split; reflexivity).
  split; [exact H |].
  destruct (upload_expiration_field
              (answer_with 200 (Some Null)) png_only sample_upload sample_world H)
    as (req & Hsent & Habsent & _).
  exists req. split; [exact Hsent | apply Habsent; reflexivity].
Defined.

(** C8: a delete that has something to delete calls [apiRequest] with
    [endpointUseOrigin: true] and its request goes to
    [https://<username>.imgbb.com/json]; an upload calls [apiRequest] with
    the body alone and its request goes to [https://imgbb.com/json]; both
    carry [https://<username>.imgbb.com] as their [origin] header. *)
Theorem delete_on_user_origin_upload_on_default_host
    (transport : Request -> Result Response) (getType : string -> option string)
    (w : World) (u : string) :
  configured w ->
  IMGBB_USERNAME (globals w) = Some u ->
  (forall id, ids_length id <> 0 ->
     removeImages transport id w
     = (resp <- apiRequest transport
                  (ApiOptions.mk (delete_body (IMGBB_KEY (globals w)) id)
                     None None None None (Some true)) ;;
        data <- await_json resp ;;
        ret (Some data)) w
     /\ exists req,
          sent (snd (removeImages transport id w)) = (sent w ++ [req])%list
          /\ req_url req = "https://" ++ u ++ ".imgbb.com/json"
          /\ hdr_origin (req_headers req) = "https://" ++ u ++ ".imgbb.com")
  /\ (forall opts,
        (exists body,
           uploadImage transport getType opts w
           = (resp <- apiRequest transport (ApiOptions.of_body body) ;;
              data <- await_json resp ;;
              ret data) w)
        /\ exists req,
             sent (snd (uploadImage transport getType opts w)) = (sent w ++ [req])%list
             /\ req_url req = "https://imgbb.com/json"
             /\ hdr_origin (req_headers req) = "https://" ++ u ++ ".imgbb.com").
Proof.
  intros Hc Hu. split.
  - intros id Hlen. split.
    + unfold removeImages at 1. unfold bind at 1.
      rewrite (ensureCreds_configured w Hc).
      destruct (Nat.eqb_spec (ids_length id) 0) as [H0 | _]; [contradiction |].
      reflexivity.
    + destruct (removeImages_configured transport id w Hc Hlen)
        as (req & Hrun & Hurl & Horigin & _).
      exists req. rewrite Hrun, Hurl, Horigin, Hu. repeat split.
  - intros opts. split.
    + eexists. unfold uploadImage at 1. unfold bind at 1.
      rewrite (ensureCreds_configured w Hc).
      reflexivity.
    + destruct (uploadImage_configured transport getType opts w Hc)
        as (req & Hrun & Hurl & Horigin & _).
      exists req. rewrite Hrun, Hurl, Horigin, Hu. repeat split.
Qed.

Lemma delete_on_user_origin_upload_on_default_host_witness :
  configured sample_world
  /\ (exists req,
        sent (snd (removeImages (answer_with 200 (Some Null)) (One "abc123")
                     sample_world)) = [req]
        /\ req_url req = "https://alice.imgbb.com/json"
        /\ hdr_origin (req_headers req) = "https://alice.imgbb.com")
  /\ (exists req,
        sent (snd (uploadImage (answer_with 200 (Some Null)) png_only sample_upload
                     sample_world)) = [req]
        /\ req_url req = "https://imgbb.com/json"
        /\ hdr_origin (req_headers req) = "https://alice.imgbb.com").
Proof.
  assert (H : configured sample_world) by (repeat split; reflexivity).
  destruct (delete_on_user_origin_upload_on_default_host
              (answer_with 200 (Some Null)) png_only sample_world "alice"
              H eq_refl) as (Hdel & Hup).
  split; [exact H |]. split.
  - destruct (Hdel (One "abc123")) as (_ & req & Hr); [discriminate |].
    exists req. exact Hr.
  - destruct (Hup sample_upload) as (_ & req & Hr).
    exists req. exact Hr.
Defined.

(** C2, on the code: a status of 400 with a body that is not JSON makes
    [apiRequest] throw the parse error of [resp.json()], not the error with
    the placeholder message. *)
Lemma unparseable_error_body_throws_parse_error :
  fst (apiRequest (answer_with 400 None) (ApiOptions.of_body FormData.empty)
         sample_world)
  = Throw (SyntaxError "Unexpected token < in JSON at position 0")
  /\ fst (apiRequest (answer_with 400 None) (ApiOptions.of_body FormData.empty)
            sample_world)
     <> Throw (Error "response status 400: no error message provided").
Proof. split; [vm_compute; reflexivity | vm_compute; discriminate]. Qed.

(** C2, amended: with credentials set, each operation that gets a response
    outside 200..299 whose body parses as JSON throws an [Error] whose
    message is "response status <status>: <m>", where [m] is the vendor's
    message when [error.message] is a non-empty string and the placeholder
    when that property is missing or falsy; any other truthy
    [error.message] is converted to a string for [m], and when it has no
    string form (an object with an own [toString] property) the
    [TypeError] of the conversion is thrown. When the body does not parse,
    what is thrown is the rejection of [resp.json()]. *)
Theorem non_ok_response_fails
    (transport : Request -> Result Response) (getType : string -> option string)
    (w : World) :
  configured w ->
  (forall opts, exists req,
     snd (apiRequest transport opts w) = after_request w req
     /\ forall resp, transport req = Ok resp -> ok resp = false ->
          fails_on_response resp (fst (apiRequest transport opts w)))
  /\ (forall opts, exists req,
        snd (uploadImage transport getType opts w) = after_request w req
        /\ forall resp, transport req = Ok resp -> ok resp = false ->
             fails_on_response resp (fst (uploadImage transport getType opts w)))
  /\ (forall id, ids_length id <> 0 -> exists req,
        snd (removeImages transport id w) = after_request w req
        /\ forall resp, transport req = Ok resp -> ok resp = false ->
             fails_on_response resp (fst (removeImages transport id w))).
Proof.
  intros Hc. split; [| split].
  - intros opts.
    destruct (apiRequest_configured transport opts w Hc) as (req & Hrun & _).
    exists req. rewrite Hrun. split; [reflexivity |].
    intros resp Ht Hok. rewrite Ht. cbn [fst].
    replace (settle (Ok resp))
      with (match settle (Ok resp) with Ok r => Ok r | Throw e => Throw e end)
      by (destruct (settle (Ok resp)); reflexivity).
    apply (settle_not_ok resp (fun r => Ok r) Hok).
  - intros opts.
    destruct (uploadImage_configured transport getType opts w Hc)
      as (req & Hrun & _).
    exists req. rewrite Hrun. split; [reflexivity |].
    intros resp Ht Hok. rewrite Ht. cbn [fst].
    apply (settle_not_ok resp json Hok).
  - intros id Hlen.
    destruct (removeImages_configured transport id w Hc Hlen)
      as (req & Hrun & _).
    exists req. rewrite Hrun. split; [reflexivity |].
    intros resp Ht Hok. rewrite Ht. cbn [fst].
    apply (settle_not_ok resp
             (fun r => match json r with
                       | Ok data => Ok (Some data)
                       | Throw e => Throw e
                       end) Hok).
Qed.

Lemma non_ok_response_fails_witness :
  configured sample_world
  /\ fst (removeImages (answer_with 400 (Some bad_token)) (One "abc123") sample_world)
     = Throw (Error "response status 400: bad token")
  /\ fst (uploadImage (answer_with 400 (Some (Obj []))) png_only sample_upload
            sample_world)
     = Throw (Error "response status 400: no error message provided")
  /\ fst (apiRequest
            (answer_with 400
               (Some (Obj [("error", Obj [("message", Obj [("toString", Num "1")])])])))
            (ApiOptions.of_body FormData.empty) sample_world)
     = Throw (TypeError "Cannot convert object to primitive value").
Proof.
  assert (H : configured sample_world) by (repeat split; reflexivity).
  split; [exact H |]. split; [| split].
  - destruct (non_ok_response_fails (answer_with 400 (Some bad_token)) png_only
                sample_world H) as (_ & _ & Hdel).
    destruct (Hdel (One "abc123")) as (req & _ & Hfail); [discriminate |].
    destruct (Hfail _ eq_refl eq_refl) as (Hjson & _).
    destruct (Hjson bad_token eq_refl) as (Hm & _).
    apply (Hm "bad token" eq_refl). discriminate.
  - destruct (non_ok_response_fails (answer_with 400 (Some (Obj []))) png_only
                sample_world H) as (_ & Hup & _).
    destruct (Hup sample_upload) as (req & _ & Hfail).
    destruct (Hfail _ eq_refl eq_refl) as (Hjson & _).
    destruct (Hjson (Obj []) eq_refl) as (_ & Hm & _).
    apply (Hm eq_refl).
  - destruct (non_ok_response_fails
                (answer_with 400
                   (Some (Obj [("error",
                                Obj [("message", Obj [("toString", Num "1")])])])))
                png_only sample_world H) as (Hapi & _).
    destruct (Hapi (ApiOptions.of_body FormData.empty)) as (req & _ & Hfail).
    destruct (Hfail _ eq_refl eq_refl) as (Hjson & _).
    destruct (Hjson _ eq_refl) as (_ & _ & Hx).
    apply (Hx (Obj [("toString", Num "1")])); reflexivity.
Defined.

(** *** What [set] does to a repeated name *)

Lemma getAll_others (name : string) (fd : FormData.t) :
  FormData.getAll name (FormData.others name fd) = [].
Proof.
  unfold FormData.getAll, FormData.others, FormData.named.
  induction fd as [| e fd IH]; cbn; [reflexivity |].
  destruct (fst e =? name) eqn:He; cbn; [exact IH |].
  now rewrite He.
Qed.

(** After [fd.set(name, v)] there is exactly one entry called [name]. *)
Lemma getAll_set_same (name : string) (v : FormData.Value) (fd : FormData.t) :
  FormData.getAll name (FormData.set name v fd) = [v].
Proof.
  pose proof (getAll_others name) as Hothers.
  unfold FormData.getAll, FormData.named in *.
  induction fd as [| e fd IH]; cbn.
  - now rewrite String.eqb_refl.
  - unfold FormData.named.
    destruct (fst e =? name) eqn:He; cbn.
    + rewrite String.eqb_refl. cbn. f_equal. apply Hothers.
    + now rewrite He.
Qed.

(** The loop of [removeImages] leaves one [deleting[ids][]] entry: the last
    identifier. *)
Lemma set_loop_keeps_last (name : string) (ids : list string) (fd : FormData.t) :
  ids <> [] ->
  FormData.getAll name
    (fold_left (fun body i => FormData.set name (FormData.Text i) body) ids fd)
  = [FormData.Text (last ids "")].
Proof.
  revert fd. induction ids as [| i rest IH]; intros fd Hne; [contradiction |].
  destruct rest as [| j rest].
  - cbn. apply getAll_set_same.
  - change (last (i :: j :: rest) "") with (last (j :: rest) "").
    cbn [fold_left]. cbn [fold_left] in IH. apply IH. discriminate.
Qed.

Lemma delete_body_keeps_last (key : option string) (ids : list string) :
  ids <> [] ->
  FormData.getAll "deleting[ids][]" (delete_body key (Many ids))
  = [FormData.Text (last ids "")].
Proof. intros Hne. unfold delete_body. now apply set_loop_keeps_last. Qed.

(** C1, on the code: [removeImages(["a","b"])] sends a body whose only
    [deleting[ids][]] entry is "b"; the entry for "a" was replaced, because
    the loop calls [set] and [set] keeps one entry per name. The fields
    [from], [multiple] and [delete] are as documented. *)
Theorem removeImages_two_ids_sends_last_only :
  exists req,
    sent (snd (removeImages (answer_with 200 (Some Null)) (Many ["a"; "b"])
                 sample_world)) = [req]
    /\ req_body req
       = [ ("action", FormData.Text "delete");
           ("auth_token", FormData.Text "k3y");
           ("from", FormData.Text "list");
           ("multiple", FormData.Text "true");
           ("delete", FormData.Text "images");
           ("deleting[ids][]", FormData.Text "b") ]
    /\ FormData.getAll "deleting[ids][]" (req_body req) = [FormData.Text "b"]
    /\ FormData.getAll "deleting[ids][]" (req_body req)
       <> [FormData.Text "a"; FormData.Text "b"].
Proof.
  eexists. split; [vm_compute; reflexivity |].
  split; [reflexivity |]. split; [reflexivity | discriminate].
Qed.

(** C5, on the code: the two dots of the pattern are not escaped, so an
    address whose host is not [i.ibb.co] is accepted and its first path
    segment returned. *)
Theorem getImageIdByUrl_accepts_other_host :
  getImageIdByUrl (OfString "https://iXibbYco/abc/pic.png") = Some "abc"
  /\ getImageIdByUrl (OfString "https://i.ibb.co/abc/pic.png") = Some "abc".
Proof. split; vm_compute; reflexivity. Qed.

(** *** Soundness of the matchers *)

Section MatcherSoundness.

Import RegExp.

Lemma sound_char (p : ascii -> bool) :
  sound (char p) (consumes (fun l => exists ch, l = [ch] /\ p ch = true)).
Proof.
  intros [i r cap] c y H. unfold char in H. cbn in H.
  destruct r as [| ch r]; [discriminate |].
  destruct (p ch) eqn:Hp; [| discriminate].
  eexists. split; [| exact H].
  exists [ch]. cbn. repeat split; eauto. lia.
Qed.

Lemma sound_opt (p : ascii -> bool) :
  sound (opt p)
    (consumes (fun l => l = [] \/ exists ch, l = [ch] /\ p ch = true)).
Proof.
  intros x c y H. unfold opt in H.
  destruct (char p x c) as [z |] eqn:Hc.
  - injection H as ->.
    destruct (sound_char p x c y Hc) as (x' & (l & Hl & Hrest) & Hk).
    exists x'. split; [| exact Hk]. exists l. split; [now right | exact Hrest].
  - exists x. split; [| exact H].
    exists []. cbn. repeat split; auto.
Qed.

Lemma sound_star_on (p : ascii -> bool) (r : list ascii) :
  forall i cap c y,
    star_on p i r cap c = Some y ->
    exists x',
      consumes (fun l => forallb p l = true) (mkState i r cap) x'
      /\ c x' = Some y.
Proof.
  induction r as [| ch r IH]; intros i cap c y H; cbn in H.
  - eexists. split; [| exact H]. exists []. cbn. repeat split; auto.
  - destruct (p ch) eqn:Hp.
    + destruct (star_on p (S i) r cap c) as [z |] eqn:Hs.
      * injection H as ->.
        destruct (IH _ _ _ _ Hs) as (x' & (l & Hl & Hrest & Hidx & Hcap) & Hk).
        exists x'. split; [| exact Hk].
        exists (ch :: l). cbn in *. rewrite Hp, Hl, Hrest.
        repeat split; auto. lia.
      * eexists. split; [| exact H]. exists []. cbn. repeat split; auto.
    + eexists. split; [| exact H]. exists []. cbn. repeat split; auto.
Qed.

Lemma sound_plus (p : ascii -> bool) :
  sound (plus p) (consumes (fun l => l <> [] /\ forallb p l = true)).
Proof.
  intros x c y H. unfold plus, seq in H.
  destruct (sound_char p _ _ _ H)
    as (x1 & (l1 & (ch & -> & Hp) & Hrest1 & Hidx1 & Hcap1) & H1).
  unfold star in H1. destruct x1 as [i1 r1 cap1].
  destruct (sound_star_on p _ _ _ _ _ H1)
    as (x' & (l & Hl & Hrest & Hidx & Hcap) & Hk).
  exists x'. split; [| exact Hk].
  exists (ch :: l). cbn in *. rewrite Hp, Hl, Hrest1, Hrest.
  repeat split; auto; try discriminate; try congruence. lia.
Qed.

Lemma sound_lits_i (s : string) : sound (lits_i s) (consumes (spells_i s)).
Proof.
  induction s as [| p s IH]; intros x c y H; cbn in H.
  - exists x. split; [| exact H].
    exists []. cbn. repeat split; auto. constructor.
  - unfold seq in H.
    destruct (sound_char _ _ _ _ H)
      as (x1 & (l1 & (ch & -> & Hp) & Hrest1 & Hidx1 & Hcap1) & H1).
    destruct (IH _ _ _ H1) as (x' & (l & Hl & Hrest & Hidx & Hcap) & Hk).
    exists x'. split; [| exact Hk].
    exists (ch :: l). cbn in *. rewrite Hrest1, Hrest.
    repeat split; auto; try congruence; try lia.
    constructor; assumption.
Qed.

(** A group records exactly what its body consumed. *)
Lemma sound_group (m : Matcher) (P : list ascii -> Prop) :
  sound m (consumes P) ->
  sound (group m)
    (fun x x' =>
       exists l,
         P l
         /\ rest x = (l ++ rest x')%list
         /\ endIndex x' = endIndex x + List.length l
         /\ capture1 x' = Some l).
Proof.
  intros Hm x c y H. unfold group in H.
  destruct (Hm _ _ _ H) as (x1 & (l & Hl & Hrest & Hidx & Hcap) & Hk).
  eexists. split; [| exact Hk].
  exists l. cbn. repeat split; auto.
  f_equal. rewrite Hidx, Hrest.
  replace (endIndex x + List.length l - endIndex x) with (List.length l + 0) by lia.
  rewrite firstn_app_2. cbn. apply app_nil_r.
Qed.

(** A pattern that begins with [^] matches at index 0 or nowhere. *)
Lemma exec_from_bol_later (m : Matcher) (r : list ascii) :
  forall i, exec_from (seq bol m) (S i) r = None.
Proof.
  induction r as [| ch r IH]; intros i; cbn; [reflexivity | apply IH].
Qed.

Lemma exec_from_bol (m : Matcher) (r : list ascii) (y : State) :
  exec_from (seq bol m) 0 r = Some y ->
  m (mkState 0 r None) (fun z => Some z) = Some y.
Proof.
  intros H. destruct r as [| ch r]; cbn in H.
  - destruct (m _ _); [exact H | discriminate].
  - destruct (m _ _); [exact H |].
    now rewrite exec_from_bol_later in H.
Qed.

End MatcherSoundness.

Ltac next_matcher H :=
  match type of H with
  | RegExp.seqs (?m :: ?ms) ?x ?c = ?r =>
      change (m x (fun z => RegExp.seqs ms z c) = r) in H
  end.

Ltac through lem H x' Hc :=
  next_matcher H;
  let H' := fresh "H" in
  destruct (lem _ _ _ H) as (x' & Hc & H'); clear H; rename H' into H;
  cbv beta in H.

(** A successful match of [cdn_pattern] from index 0 went through the
    shape, and captured the segment. *)
Lemma cdn_pattern_shape (url : string) (y : RegExp.State) :
  cdn_pattern (RegExp.mkState 0 (list_ascii_of_string url) None) (fun z => Some z)
  = Some y ->
  exists seg, RegExp.capture1 y = Some seg /\ cdn_shape url (string_of_list_ascii seg).
Proof.
  intros H. unfold cdn_pattern in H.
  next_matcher H. unfold RegExp.bol in H. cbn [RegExp.endIndex Nat.eqb] in H.
  through (sound_lits_i "http") H x1 C1.
  through (sound_opt (RegExp.lit_i "s")) H x2 C2.
  through (sound_lits_i "://i") H x3 C3.
  through (sound_char RegExp.dot) H x4 C4.
  through (sound_lits_i "ibb") H x5 C5.
  through (sound_char RegExp.dot) H x6 C6.
  through (sound_lits_i "co/") H x7 C7.
  through (sound_group _ _ (sound_plus RegExp.word)) H x8 C8.
  through (sound_lits_i "/") H x9 C9.
  cbn in H. injection H as <-.
  destruct C1 as (l1 & P1 & R1 & _ & _).
  destruct C2 as (l2 & P2 & R2 & _ & _).
  destruct C3 as (l3 & P3 & R3 & _ & _).
  destruct C4 as (l4 & (d1 & -> & P4) & R4 & _ & _).
  destruct C5 as (l5 & P5 & R5 & _ & _).
  destruct C6 as (l6 & (d2 & -> & P6) & R6 & _ & _).
  destruct C7 as (l7 & P7 & R7 & _ & _).
  destruct C8 as (seg & (Hne & Hw) & R8 & _ & K8).
  destruct C9 as (l9 & P9 & R9 & _ & K9).
  exists seg. split; [congruence |].
  exists l1, l2, l3, d1, l5, d2, l7, seg, l9, (RegExp.rest x9).
  cbn [RegExp.rest] in R1.
  rewrite R1, R2, R3, R4, R5, R6, R7, R8, R9.
  repeat split; auto.
  destruct P2 as [-> | (ch & -> & Hs)]; [now left | right].
  repeat constructor. exact Hs.
Qed.

(** Whenever [getImageIdByUrl] returns an identifier, its argument carried
    a non-empty address of the shape of the pattern, and the identifier is
    the captured segment. *)
Lemma getImageIdByUrl_some_shape (u : UrlOrUser) (id : string) :
  getImageIdByUrl u = Some id ->
  exists url,
    (u = OfString url \/ u = OfUser (Some url)) /\ url <> "" /\ cdn_shape url id.
Proof.
  intros H.
  assert (Hurl : exists url,
             (u = OfString url \/ u = OfUser (Some url))
             /\ url <> ""
             /\ or_else (RegExp.match_group1 cdn_pattern url) None = Some id).
  { unfold getImageIdByUrl in H.
    destruct u as [url | [url |]]; try discriminate;
      exists url; cbn in H;
      (destruct (String.eqb_spec url ""); [discriminate |]);
      cbn in H; auto. }
  destruct Hurl as (url & Hu & Hne & Hm).
  exists url. split; [exact Hu |]. split; [exact Hne |].
  unfold or_else in Hm.
  destruct (truthy (RegExp.match_group1 cdn_pattern url)); [| discriminate].
  unfold RegExp.match_group1 in Hm.
  destruct (RegExp.exec_from cdn_pattern 0 (list_ascii_of_string url))
    as [y |] eqn:He; [| discriminate].
  apply (exec_from_bol
           (RegExp.seqs
              [ RegExp.lits_i "http"; RegExp.opt (RegExp.lit_i "s");
                RegExp.lits_i "://i"; RegExp.char RegExp.dot;
                RegExp.lits_i "ibb"; RegExp.char RegExp.dot;
                RegExp.lits_i "co/"; RegExp.group (RegExp.plus RegExp.word);
                RegExp.lits_i "/" ])) in He.
  assert (Hy : cdn_pattern (RegExp.mkState 0 (list_ascii_of_string url) None)
                 (fun z => Some z) = Some y) by exact He.
  destruct (cdn_pattern_shape url y Hy) as (seg & Hcap & Hshape).
  rewrite Hcap in Hm. cbn in Hm. injection Hm as <-. exact Hshape.
Qed.

(** An empty address, or a user without one, gives [null]. *)
Lemma getImageIdByUrl_nothing :
  getImageIdByUrl (OfString "") = None
  /\ getImageIdByUrl (OfUser None) = None
  /\ getImageIdByUrl (OfUser (Some "")) = None.
Proof. repeat split. Qed.


(** ** Further properties of the operations *)

Lemma configured_or_missing (w : World) : configured w \/ missing_credential w.
Proof.
  unfold configured, missing_credential.
  destruct (truthy (IMGBB_KEY (globals w)));
    destruct (truthy (IMGBB_COOKIE (globals w)));
    destruct (truthy (IMGBB_USERNAME (globals w))); auto.
Qed.

Lemma last_cons_default {A} (i : A) (rest : list A) (d : A) :
  last (i :: rest) d = last rest i.
Proof.
  revert i d. induction rest as [| j rest IH]; intros i d; [reflexivity |].
  change (last (i :: j :: rest) d) with (last (j :: rest) d).
  now rewrite (IH j d), (IH j i).
Qed.

(** The loop over the identifiers, run on the five fields set before it. *)
Lemma delete_body_many (key : option string) (ids : list string) :
  ids <> [] ->
  delete_body key (Many ids)
  = [ ("action", FormData.Text "delete");
      ("auth_token", FormData.Text (template key));
      ("from", FormData.Text "list");
      ("multiple", FormData.Text "true");
      ("delete", FormData.Text "images");
      ("deleting[ids][]", FormData.Text (last ids "")) ].
Proof.
  intros Hne. destruct ids as [| i rest]; [contradiction |].
  rewrite last_cons_default. unfold delete_body. cbn -[last].
  clear Hne. revert i. induction rest as [| j rest IH]; intros i; [reflexivity |].
  cbn -[last]. rewrite IH. now rewrite last_cons_default.
Qed.

(** X1: with credentials set, [removeImages(id)] for a non-empty string
    sends one request whose body is, in order, [action=delete],
    [auth_token=<key>], [single=true], [delete=image], [deleting[id]=<id>]. *)
Theorem removeImages_single_body
    (transport : Request -> Result Response) (w : World) (id k : string) :
  configured w ->
  IMGBB_KEY (globals w) = Some k ->
  id <> "" ->
  exists req,
    snd (removeImages transport (One id) w) = after_request w req
    /\ req_method req = "POST"
    /\ req_body req
       = [ ("action", FormData.Text "delete");
           ("auth_token", FormData.Text k);
           ("single", FormData.Text "true");
           ("delete", FormData.Text "image");
           ("deleting[id]", FormData.Text id) ].
Proof.
  intros Hc Hk Hid.
  assert (Hlen : ids_length (One id) <> 0) by (destruct id; [contradiction | discriminate]).
  unfold removeImages, bind. rewrite (ensureCreds_configured w Hc).
  destruct (Nat.eqb_spec (ids_length (One id)) 0) as [H0 | _]; [contradiction |].
  cbn [read_globals].
  match goal with
  | |- context [apiRequest transport ?o w] =>
      destruct (apiRequest_configured transport o w Hc)
        as (req & Hrun & Hbody & Hmeth & _)
  end.
  exists req. rewrite Hrun.
  split; [now destruct (settle (transport req)) as [resp |]; cbn;
               [unfold await_json, ret; destruct (json resp) |] |].
  split; [exact Hmeth |].
  rewrite Hbody, Hk. reflexivity.
Qed.

Lemma removeImages_single_body_witness :
  exists req,
    snd (removeImages (answer_with 200 (Some Null)) (One "abc123") sample_world)
    = after_request sample_world req
    /\ FormData.getAll "deleting[id]" (req_body req) = [FormData.Text "abc123"].
Proof.
  destruct (removeImages_single_body (answer_with 200 (Some Null)) sample_world
              "abc123" "k3y") as (req & Hw & _ & Hb).
  - repeat split; reflexivity.
  - reflexivity.
  - discriminate.
  - exists req. split; [exact Hw | rewrite Hb; reflexivity].
Defined.

(** X2: with credentials set, [removeImages(ids)] for any non-empty list
    sends one request whose body has exactly six entries: [action],
    [auth_token], [from=list], [multiple=true], [delete=images] and a single
    [deleting[ids][]] holding the last identifier of the list. *)
Theorem removeImages_list_body
    (transport : Request -> Result Response) (w : World) (ids : list string) :
  configured w ->
  ids <> [] ->
  exists req,
    snd (removeImages transport (Many ids) w) = after_request w req
    /\ req_body req
       = [ ("action", FormData.Text "delete");
           ("auth_token", FormData.Text (template (IMGBB_KEY (globals w))));
           ("from", FormData.Text "list");
           ("multiple", FormData.Text "true");
           ("delete", FormData.Text "images");
           ("deleting[ids][]", FormData.Text (last ids "")) ].
Proof.
  intros Hc Hne.
  assert (Hlen : ids_length (Many ids) <> 0) by (destruct ids; [contradiction | discriminate]).
  destruct (removeImages_configured transport (Many ids) w Hc Hlen)
    as (req & Hrun & _ & _ & Hbody).
  exists req. rewrite Hrun. split; [reflexivity |].
  rewrite Hbody. now apply delete_body_many.
Qed.

Lemma removeImages_list_body_witness :
  exists req,
    snd (removeImages (answer_with 200 (Some Null)) (Many ["x"; "y"; "x"]) sample_world)
    = after_request sample_world req
    /\ FormData.getAll "deleting[ids][]" (req_body req) = [FormData.Text "x"].
Proof.
  destruct (removeImages_list_body (answer_with 200 (Some Null)) sample_world
              ["x"; "y"; "x"]) as (req & Hw & Hb).
  - repeat split; reflexivity.
  - discriminate.
  - exists req. split; [exact Hw | rewrite Hb; reflexivity].
Defined.

Lemma or_str_some (s d : string) : s <> "" -> or_str (Some s) d = s.
Proof. intros H. cbn. now destruct (String.eqb_spec s ""). Qed.

Lemma or_else_some (s : string) (b : option string) :
  s <> "" -> or_else (Some s) b = Some s.
Proof. intros H. unfold or_else. cbn. now destruct (String.eqb_spec s ""). Qed.

Lemma or_str_falsy (a : option string) (d : string) :
  truthy a = false -> or_str a d = d.
Proof.
  destruct a as [s |]; cbn; [| reflexivity].
  now destruct (s =? "").
Qed.

(** X3: with credentials set, a non-empty [endpoint] option is the address
    of the request as it stands, whatever [origin] and [endpointUseOrigin]
    are; without it the address is the [origin] option followed by "/json"
    when [endpointUseOrigin] is true and a non-empty [origin] is given, and
    "https://imgbb.com/json" when [endpointUseOrigin] is not true. A
    non-empty [origin] option is always the [origin] header. *)
Theorem apiRequest_endpoint_and_origin_options
    (transport : Request -> Result Response) (opts : ApiOptions.t) (w : World) :
  configured w ->
  exists req,
    snd (apiRequest transport opts w) = after_request w req
    /\ (forall e, ApiOptions.endpoint opts = Some e -> e <> "" -> req_url req = e)
    /\ (forall o, ApiOptions.origin opts = Some o -> o <> "" ->
          hdr_origin (req_headers req) = o
          /\ (truthy (ApiOptions.endpoint opts) = false ->
              ApiOptions.endpointUseOrigin opts = Some true ->
              req_url req = o ++ "/json"))
    /\ (truthy (ApiOptions.endpoint opts) = false ->
        ApiOptions.endpointUseOrigin opts <> Some true ->
        req_url req = "https://imgbb.com/json").
Proof.
  intros Hc.
  destruct (apiRequest_configured transport opts w Hc)
    as (req & Hrun & _ & _ & _ & Horigin & Hurl).
  exists req. rewrite Hrun. split; [reflexivity |]. split; [| split].
  - intros e He Hne. rewrite Hurl, He. now apply or_str_some.
  - intros o Ho Hne.
    assert (Hh : hdr_origin (req_headers req) = o)
      by (rewrite Horigin, Ho; now apply or_str_some).
    split; [exact Hh |].
    intros Hend Huse. rewrite Hurl, Huse, Hh. now apply or_str_falsy.
  - intros Hend Huse. rewrite Hurl, (or_str_falsy _ _ Hend).
    destruct (ApiOptions.endpointUseOrigin opts) as [[|] |];
      [contradiction | reflexivity | reflexivity].
Qed.

Lemma apiRequest_endpoint_and_origin_options_witness :
  exists req,
    snd (apiRequest (answer_with 200 (Some Null))
           (ApiOptions.mk [] None None (Some "https://bob.imgbb.com")
              (Some "https://example.org/api") (Some true))
           sample_world) = after_request sample_world req
    /\ req_url req = "https://example.org/api"
    /\ hdr_origin (req_headers req) = "https://bob.imgbb.com".
Proof.
  destruct (apiRequest_endpoint_and_origin_options (answer_with 200 (Some Null))
              (ApiOptions.mk [] None None (Some "https://bob.imgbb.com")
                 (Some "https://example.org/api") (Some true))
              sample_world)
    as (req & Hw & He & Ho & _).
  - repeat split; reflexivity.
  - exists req. split; [exact Hw |]. split.
    + apply He; [reflexivity | discriminate].
    + apply (Ho "https://bob.imgbb.com"); [reflexivity | discriminate].
Defined.

(** X4: with credentials set and no usable [origin] option, a non-empty
    [username] option replaces the configured username in the origin:
    the [origin] header is [https://<username option>.imgbb.com]. *)
Theorem apiRequest_username_option
    (transport : Request -> Result Response) (opts : ApiOptions.t) (w : World)
    (u : string) :
  configured w ->
  truthy (ApiOptions.origin opts) = false ->
  ApiOptions.username opts = Some u ->
  u <> "" ->
  exists req,
    snd (apiRequest transport opts w) = after_request w req
    /\ hdr_origin (req_headers req) = "https://" ++ u ++ ".imgbb.com".
Proof.
  intros Hc Ho Hu Hne.
  destruct (apiRequest_configured transport opts w Hc)
    as (req & Hrun & _ & _ & _ & Horigin & _).
  exists req. rewrite Hrun. split; [reflexivity |].
  rewrite Horigin, (or_str_falsy _ _ Ho), Hu, (or_else_some u _ Hne).
  reflexivity.
Qed.

Lemma apiRequest_username_option_witness :
  exists req,
    snd (apiRequest (answer_with 200 (Some Null))
           (ApiOptions.mk [] (Some "bob") None None None None)
           sample_world) = after_request sample_world req
    /\ hdr_origin (req_headers req) = "https://bob.imgbb.com".
Proof.
  apply (apiRequest_username_option (answer_with 200 (Some Null))
           (ApiOptions.mk [] (Some "bob") None None None None) sample_world "bob").
  - repeat split; reflexivity.
  - reflexivity.
  - reflexivity.
  - discriminate.
Defined.

(** X5: with credentials set, the [cookie] header is the [cookie] option
    when that is a non-empty string, and the configured cookie otherwise. *)
Theorem apiRequest_cookie_header
    (transport : Request -> Result Response) (opts : ApiOptions.t) (w : World) :
  configured w ->
  exists req,
    snd (apiRequest transport opts w) = after_request w req
    /\ (forall c, ApiOptions.cookie opts = Some c -> c <> "" ->
          hdr_cookie (req_headers req) = Some c)
    /\ (truthy (ApiOptions.cookie opts) = false ->
        hdr_cookie (req_headers req) = IMGBB_COOKIE (globals w)
        /\ truthy (hdr_cookie (req_headers req)) = true).
Proof.
  intros Hc.
  destruct (apiRequest_configured transport opts w Hc)
    as (req & Hrun & _ & _ & Hcookie & _).
  exists req. rewrite Hrun. split; [reflexivity |]. split.
  - intros c Ho Hne. rewrite Hcookie, Ho. now apply or_else_some.
  - intros Hf. rewrite Hcookie. unfold or_else. rewrite Hf.
    split; [reflexivity | apply Hc].
Qed.

Lemma apiRequest_cookie_header_witness :
  exists req,
    snd (apiRequest (answer_with 200 (Some Null))
           (ApiOptions.mk [] None (Some "") None None None)
           sample_world) = after_request sample_world req
    /\ hdr_cookie (req_headers req) = Some "PHPSESSID=1".
Proof.
  destruct (apiRequest_cookie_header (answer_with 200 (Some Null))
              (ApiOptions.mk [] None (Some "") None None None) sample_world)
    as (req & Hw & _ & Hc).
  - repeat split; reflexivity.
  - exists req. split; [exact Hw |]. now destruct (Hc eq_refl).
Defined.

(** X6: [apiRequest] returns a response only when the credentials are set,
    the transport answered with that response, and its status is within
    200..299; exactly one request was made. *)
Theorem apiRequest_returns_only_ok_responses
    (transport : Request -> Result Response) (opts : ApiOptions.t) (w : World)
    (resp : Response) :
  fst (apiRequest transport opts w) = Ok resp ->
  configured w
  /\ (200 <= status resp <= 299)%Z
  /\ exists req,
       transport req = Ok resp
       /\ snd (apiRequest transport opts w) = after_request w req.
Proof.
  intros H.
  destruct (configured_or_missing w) as [Hc | Hm].
  - split; [exact Hc |].
    destruct (apiRequest_configured transport opts w Hc) as (req & Hrun & _).
    rewrite Hrun in *. cbn [fst snd] in *.
    unfold settle in H.
    destruct (transport req) as [r | e] eqn:Ht; [| discriminate].
    destruct (ok r) eqn:Hok.
    + injection H as ->. split.
      * unfold ok in Hok. apply andb_prop in Hok. lia.
      * exists req. split; [exact Ht | reflexivity].
    + destruct (json r); discriminate.
  - unfold apiRequest, bind in H. rewrite (ensureCreds_missing w Hm) in H.
    discriminate.
Qed.

Lemma apiRequest_returns_only_ok_responses_witness :
  (200 <= 204 <= 299)%Z
  /\ sent (snd (apiRequest (answer_with 204 None) (ApiOptions.of_body [])
                  sample_world))
     = [ {| req_url := "https://imgbb.com/json";
            req_method := "POST";
            req_body := [];
            req_headers := {| hdr_cookie := Some "PHPSESSID=1";
                              hdr_origin := "https://alice.imgbb.com" |} |} ].
Proof.
  destruct (apiRequest_returns_only_ok_responses (answer_with 204 None)
              (ApiOptions.of_body []) sample_world
              {| status := 204;
                 json := Throw (SyntaxError "Unexpected token < in JSON at position 0") |}
              eq_refl) as (_ & Hs & req & _ & Hw).
  split; [exact Hs |]. reflexivity.
Defined.

(** X7: [removeImages] resolves to [undefined] only for an empty argument,
    and then the world is as before; after a request it resolves to the
    parsed body of the response. *)
Theorem removeImages_undefined_only_when_empty
    (transport : Request -> Result Response) (id : ImageIds) (w : World) :
  fst (removeImages transport id w) = Ok None ->
  ids_length id = 0 /\ snd (removeImages transport id w) = w.
Proof.
  intros H.
  destruct (configured_or_missing w) as [Hc | Hm].
  - destruct (Nat.eq_dec (ids_length id) 0) as [H0 | Hlen].
    + split; [exact H0 |].
      unfold removeImages, bind. rewrite (ensureCreds_configured w Hc).
      now rewrite H0.
    + destruct (removeImages_configured transport id w Hc Hlen)
        as (req & Hrun & _).
      rewrite Hrun in H. cbn [fst] in H.
      destruct (settle (transport req)) as [r | e]; [| discriminate].
      destruct (json r); discriminate.
  - unfold removeImages, bind in H. rewrite (ensureCreds_missing w Hm) in H.
    discriminate.
Qed.

Lemma removeImages_undefined_only_when_empty_witness :
  ids_length (Many []) = 0
  /\ snd (removeImages (answer_with 200 (Some Null)) (Many []) sample_world)
     = sample_world.
Proof.
  apply (removeImages_undefined_only_when_empty
           (answer_with 200 (Some Null)) (Many []) sample_world).
  reflexivity.
Defined.

(** X8: with credentials set, when the transport rejects the request
    (a network failure), each operation throws that very rejection, after
    the one request and with no second attempt. *)
Theorem transport_rejection_propagates
    (transport : Request -> Result Response) (getType : string -> option string)
    (w : World) :
  configured w ->
  (forall opts, exists req,
     snd (apiRequest transport opts w) = after_request w req
     /\ forall e, transport req = Throw e ->
          fst (apiRequest transport opts w) = Throw e)
  /\ (forall opts, exists req,
        snd (uploadImage transport getType opts w) = after_request w req
        /\ forall e, transport req = Throw e ->
             fst (uploadImage transport getType opts w) = Throw e)
  /\ (forall id, ids_length id <> 0 -> exists req,
        snd (removeImages transport id w) = after_request w req
        /\ forall e, transport req = Throw e ->
             fst (removeImages transport id w) = Throw e).
Proof.
  intros Hc. split; [| split].
  - intros opts.
    destruct (apiRequest_configured transport opts w Hc) as (req & Hrun & _).
    exists req. rewrite Hrun. split; [reflexivity |].
    intros e He. now rewrite He.
  - intros opts.
    destruct (uploadImage_configured transport getType opts w Hc)
      as (req & Hrun & _).
    exists req. rewrite Hrun. split; [reflexivity |].
    intros e He. now rewrite He.
  - intros id Hlen.
    destruct (removeImages_configured transport id w Hc Hlen)
      as (req & Hrun & _).
    exists req. rewrite Hrun. split; [reflexivity |].
    intros e He. now rewrite He.
Qed.

Lemma transport_rejection_propagates_witness :
  fst (uploadImage (fun _ => Throw (TypeError "fetch failed")) png_only
         sample_upload sample_world)
  = Throw (TypeError "fetch failed").
Proof.
  destruct (transport_rejection_propagates
              (fun _ => Throw (TypeError "fetch failed")) png_only sample_world)
    as (_ & Hup & _).
  - repeat split; reflexivity.
  - destruct (Hup sample_upload) as (req & _ & He). now apply He.
Defined.

(** X9: no operation touches the credentials or the clock, and none
    makes more than one request: the list of requests is as before or
    longer by one. This holds whether or not the credentials are set. *)
Theorem operations_keep_credentials_and_send_at_most_once
    (transport : Request -> Result Response) (getType : string -> option string)
    (w : World) :
  let kept (w' : World) :=
    globals w' = globals w
    /\ clock w' = clock w
    /\ (sent w' = sent w \/ exists req, sent w' = (sent w ++ [req])%list) in
  (forall opts, kept (snd (apiRequest transport opts w)))
  /\ (forall opts, kept (snd (uploadImage transport getType opts w)))
  /\ (forall id, kept (snd (removeImages transport id w))).
Proof.
  cbv zeta.
  destruct (configured_or_missing w) as [Hc | Hm].
  - split; [| split].
    + intros opts.
      destruct (apiRequest_configured transport opts w Hc) as (req & Hrun & _).
      rewrite Hrun. cbn. eauto.
    + intros opts.
      destruct (uploadImage_configured transport getType opts w Hc)
        as (req & Hrun & _).
      rewrite Hrun. cbn. eauto.
    + intros id.
      destruct (Nat.eq_dec (ids_length id) 0) as [H0 | Hlen].
      * unfold removeImages, bind. rewrite (ensureCreds_configured w Hc), H0.
        cbn. auto.
      * destruct (removeImages_configured transport id w Hc Hlen)
          as (req & Hrun & _).
        rewrite Hrun. cbn. eauto.
  - split; [| split]; intros;
      unfold apiRequest, uploadImage, removeImages, bind;
      rewrite (ensureCreds_missing w Hm); cbn; auto.
Qed.

Lemma config_then {A} (m : M A) (c : ApiConfig.t) (w : World) :
  (config c ;; m) w = m (snd (config c w)).
Proof. reflexivity. Qed.

(** X10: [config] can take credentials away: after [config(c)] with a
    property of [c] missing or empty, the next operation throws the error of
    [ensureCreds] and sends nothing, even if the credentials were complete
    before. *)
Theorem config_without_a_credential_disables_operations
    (transport : Request -> Result Response) (getType : string -> option string)
    (c : ApiConfig.t) (w : World) :
  truthy (ApiConfig.key c) = false
  \/ truthy (ApiConfig.cookie c) = false
  \/ truthy (ApiConfig.username c) = false ->
  (forall opts,
     fst ((config c ;; apiRequest transport opts) w) = Throw not_configured
     /\ sent (snd ((config c ;; apiRequest transport opts) w)) = sent w)
  /\ (forall opts,
        fst ((config c ;; uploadImage transport getType opts) w) = Throw not_configured
        /\ sent (snd ((config c ;; uploadImage transport getType opts) w)) = sent w)
  /\ (forall id,
        fst ((config c ;; removeImages transport id) w) = Throw not_configured
        /\ sent (snd ((config c ;; removeImages transport id) w)) = sent w).
Proof.
  intros H.
  assert (Hm : missing_credential (snd (config c w))) by exact H.
  split; [| split]; intros.
  - rewrite (config_then (apiRequest transport opts)).
    unfold apiRequest, bind. rewrite (ensureCreds_missing _ Hm). now split.
  - rewrite (config_then (uploadImage transport getType opts)).
    unfold uploadImage, bind. rewrite (ensureCreds_missing _ Hm). now split.
  - rewrite (config_then (removeImages transport id)).
    unfold removeImages, bind. rewrite (ensureCreds_missing _ Hm). now split.
Qed.

Lemma config_without_a_credential_disables_operations_witness :
  fst ((config (ApiConfig.mk (Some "k3y") None (Some "alice")) ;;
        removeImages (answer_with 200 (Some Null)) (One "abc123")) sample_world)
  = Throw not_configured.
Proof.
  destruct (config_without_a_credential_disables_operations
              (answer_with 200 (Some Null)) png_only
              (ApiConfig.mk (Some "k3y") None (Some "alice")) sample_world)
    as (_ & _ & Hdel).
  - right. left. reflexivity.
  - now destruct (Hdel (One "abc123")).
Defined.

Lemma truthy_some (s : string) : s <> "" -> truthy (Some s) = true.
Proof. intros H. cbn. now destruct (String.eqb_spec s ""). Qed.

(** X11: operations read the credentials of the latest [config]: after
    [config({key, cookie, username})] with three non-empty strings, a delete
    of a non-empty identifier sends one request that carries the new key as
    [auth_token], the new cookie as [cookie] header, and goes to the new
    user's subdomain, whatever was configured before. *)
Theorem config_then_delete_uses_new_credentials
    (transport : Request -> Result Response) (w : World) (k ck u id : string) :
  k <> "" -> ck <> "" -> u <> "" -> id <> "" ->
  exists req,
    sent (snd ((config (ApiConfig.mk (Some k) (Some ck) (Some u)) ;;
                removeImages transport (One id)) w))
    = (sent w ++ [req])%list
    /\ FormData.getAll "auth_token" (req_body req) = [FormData.Text k]
    /\ hdr_cookie (req_headers req) = Some ck
    /\ hdr_origin (req_headers req) = "https://" ++ u ++ ".imgbb.com"
    /\ req_url req = "https://" ++ u ++ ".imgbb.com/json".
Proof.
  intros Hk Hck Hu Hid.
  rewrite config_then.
  set (w' := snd (config (ApiConfig.mk (Some k) (Some ck) (Some u)) w)).
  assert (Hc : configured w')
    by (repeat split; cbn [w' config snd globals IMGBB_KEY IMGBB_COOKIE IMGBB_USERNAME];
        now apply truthy_some).
  assert (Hlen : ids_length (One id) <> 0) by (destruct id; [contradiction | discriminate]).
  unfold removeImages, bind. rewrite (ensureCreds_configured w' Hc).
  destruct (Nat.eqb_spec (ids_length (One id)) 0) as [H0 | _]; [contradiction |].
  cbn [read_globals].
  match goal with
  | |- context [apiRequest transport ?o w'] =>
      destruct (apiRequest_configured transport o w' Hc)
        as (req & Hrun & Hbody & _ & Hcookie & Horigin & Hurl)
  end.
  exists req. rewrite Hrun.
  split; [now destruct (settle (transport req)) as [resp |]; cbn;
               [unfold await_json, ret; destruct (json resp) |] |].
  assert (Ho : hdr_origin (req_headers req) = "https://" ++ u ++ ".imgbb.com")
    by (rewrite Horigin; reflexivity).
  split; [rewrite Hbody; reflexivity |].
  split; [rewrite Hcookie; reflexivity |].
  split; [exact Ho |].
  rewrite Hurl, Ho. cbn. now rewrite string_app_assoc.
Qed.

Lemma config_then_delete_uses_new_credentials_witness :
  exists req,
    sent (snd ((config (ApiConfig.mk (Some "n3w") (Some "PHPSESSID=2") (Some "bob")) ;;
                removeImages (answer_with 200 (Some Null)) (One "abc123"))
                 sample_world))
    = [req]
    /\ FormData.getAll "auth_token" (req_body req) = [FormData.Text "n3w"]
    /\ hdr_cookie (req_headers req) = Some "PHPSESSID=2"
    /\ hdr_origin (req_headers req) = "https://bob.imgbb.com"
    /\ req_url req = "https://bob.imgbb.com/json".
Proof.
  apply (config_then_delete_uses_new_credentials (answer_with 200 (Some Null))
           sample_world "n3w" "PHPSESSID=2" "bob" "abc123"); discriminate.
Defined.

(** X12: with credentials set, on a response whose status is within
    200..299 an upload returns whatever the body parses to, and a delete
    that had something to delete returns the same; when that body is not
    JSON, the rejection of [resp.json()] is thrown. Nothing in the parsed
    value is inspected. *)
Theorem ok_response_returns_parsed_body
    (transport : Request -> Result Response) (getType : string -> option string)
    (w : World) :
  configured w ->
  (forall opts, exists req,
     snd (uploadImage transport getType opts w) = after_request w req
     /\ forall resp, transport req = Ok resp -> ok resp = true ->
          fst (uploadImage transport getType opts w) = json resp)
  /\ (forall id, ids_length id <> 0 -> exists req,
        snd (removeImages transport id w) = after_request w req
        /\ forall resp, transport req = Ok resp -> ok resp = true ->
             (forall data, json resp = Ok data ->
                fst (removeImages transport id w) = Ok (Some data))
             /\ (forall e, json resp = Throw e ->
                   fst (removeImages transport id w) = Throw e)).
Proof.
  intros Hc. split.
  - intros opts.
    destruct (uploadImage_configured transport getType opts w Hc)
      as (req & Hrun & _).
    exists req. rewrite Hrun. split; [reflexivity |].
    intros resp Ht Hok. rewrite Ht. cbn. now rewrite Hok.
  - intros id Hlen.
    destruct (removeImages_configured transport id w Hc Hlen)
      as (req & Hrun & _).
    exists req. rewrite Hrun. split; [reflexivity |].
    intros resp Ht Hok. rewrite Ht. cbn. rewrite Hok.
    split; intros x Hx; now rewrite Hx.
Qed.

Lemma ok_response_returns_parsed_body_witness :
  fst (uploadImage (answer_with 200 (Some (Obj [("status_code", Num "200")])))
         png_only sample_upload sample_world)
  = Ok (Obj [("status_code", Num "200")]).
Proof.
  destruct (ok_response_returns_parsed_body
              (answer_with 200 (Some (Obj [("status_code", Num "200")])))
              png_only sample_world) as (Hup & _).
  - repeat split; reflexivity.
  - destruct (Hup sample_upload) as (req & _ & Hr).
    now rewrite (Hr _ eq_refl eq_refl).
Defined.

(** The whole body of an upload. *)
Lemma uploadImage_body
    (transport : Request -> Result Response) (getType : string -> option string)
    (opts : ImageUploadOptions.t) (w : World) :
  configured w ->
  exists req,
    snd (uploadImage transport getType opts w) = after_request w req
    /\ hdr_cookie (req_headers req) = IMGBB_COOKIE (globals w)
    /\ req_body req
       = let name := read (spread_over (Some "image.png")
                             (ImageUploadOptions.name opts)) in
         [ ("action", FormData.Text "upload");
           ("album_id",
            FormData.Text (or_str (read (ImageUploadOptions.album opts)) ""));
           ("auth_token", FormData.Text (template (IMGBB_KEY (globals w))));
           ("expiration",
            FormData.Text
              (or_str
                 (option_map wire
                    (read (spread_over (Some SixMonths)
                             (ImageUploadOptions.expiration opts))))
                 ""));
           ("source",
            FormData.File
              (match ImageUploadOptions.image opts with
               | OfBlob b => b
               | OfBuffer bytes =>
                   new_Blob bytes (or_else (getType (or_str name "")) None)
               end)
              (FormData.file_name name));
           ("timestamp", FormData.Text (string_of_Z (clock w)));
           ("type", FormData.Text "file") ].
Proof.
  intros Hc.
  unfold uploadImage, bind. rewrite (ensureCreds_configured w Hc).
  cbn [read_globals Date_now instanceof_Blob negb].
  match goal with
  | |- context [apiRequest transport ?o w] =>
      destruct (apiRequest_configured transport o w Hc)
        as (req & Hrun & Hbody & _ & Hcookie & _)
  end.
  exists req. rewrite Hrun. split; [| split].
  - destruct (settle (transport req)) as [resp | e]; [| reflexivity].
    unfold await_json, ret. destruct (json resp); reflexivity.
  - rewrite Hcookie. unfold or_else. reflexivity.
  - rewrite Hbody. reflexivity.
Qed.

(** X13: the [username] option of an upload has no effect: whatever it is,
    the call does exactly what it does without it (the request still goes
    out under the configured username). *)
Theorem uploadImage_ignores_username_option
    (transport : Request -> Result Response) (getType : string -> option string)
    (image : Image) (username : Field string)
    (expiration : Field ImageUploadExpiration) (album name : Field string)
    (w : World) :
  uploadImage transport getType
    (ImageUploadOptions.mk image username expiration album name) w
  = uploadImage transport getType
      (ImageUploadOptions.mk image Absent expiration album name) w.
Proof. reflexivity. Qed.

(** X14: with credentials set, an upload whose [expiration] key is present
    but [undefined] sends [expiration] as the empty string (the default is
    not applied); [album_id] is the empty string when [album] is missing,
    [undefined] or empty, and the album otherwise. *)
Theorem uploadImage_optional_fields
    (transport : Request -> Result Response) (getType : string -> option string)
    (opts : ImageUploadOptions.t) (w : World) :
  configured w ->
  exists req,
    snd (uploadImage transport getType opts w) = after_request w req
    /\ (ImageUploadOptions.expiration opts = Present None ->
        FormData.getAll "expiration" (req_body req) = [FormData.Text ""])
    /\ (truthy (read (ImageUploadOptions.album opts)) = false ->
        FormData.getAll "album_id" (req_body req) = [FormData.Text ""])
    /\ (forall a, read (ImageUploadOptions.album opts) = Some a -> a <> "" ->
          FormData.getAll "album_id" (req_body req) = [FormData.Text a]).
Proof.
  intros Hc.
  destruct (uploadImage_body transport getType opts w Hc) as (req & Hw & _ & Hb).
  exists req. split; [exact Hw |]. rewrite Hb. cbv zeta.
  split; [| split].
  - intros He. rewrite He. reflexivity.
  - intros Ha. rewrite (or_str_falsy _ _ Ha). reflexivity.
  - intros a Ha Hne. rewrite Ha, (or_str_some a _ Hne). reflexivity.
Qed.

Lemma uploadImage_optional_fields_witness :
  exists req,
    snd (uploadImage (answer_with 200 (Some Null)) png_only
           (ImageUploadOptions.mk (OfBuffer []) Absent (Present None)
              (Present (Some "Zx9")) Absent)
           sample_world) = after_request sample_world req
    /\ FormData.getAll "expiration" (req_body req) = [FormData.Text ""]
    /\ FormData.getAll "album_id" (req_body req) = [FormData.Text "Zx9"].
Proof.
  destruct (uploadImage_optional_fields (answer_with 200 (Some Null)) png_only
              (ImageUploadOptions.mk (OfBuffer []) Absent (Present None)
                 (Present (Some "Zx9")) Absent)
              sample_world) as (req & Hw & He & _ & Ha).
  - repeat split; reflexivity.
  - exists req. split; [exact Hw |]. split.
    + now apply He.
    + apply Ha; [reflexivity | discriminate].
Defined.

Lemma new_Blob_type (bytes : Buffer) (g : option string) :
  new_Blob bytes (or_else g None)
  = {| blob_bytes := bytes; blob_type := or_str g "" |}.
Proof.
  unfold new_Blob, or_else. destruct g as [s |]; cbn; [| reflexivity].
  now destruct (s =? "").
Qed.

(** X15: with credentials set, the [source] field of an upload is a file
    entry. A blob given as [image] is sent as it is, whatever the MIME
    lookup says. Raw bytes are wrapped in a blob whose type is what
    [getType] finds for the file name, or the empty string when it finds
    nothing; the file name is [name] when that is a non-empty string and
    "image.png" when the key is missing. *)
Theorem uploadImage_source_field
    (transport : Request -> Result Response) (getType : string -> option string)
    (opts : ImageUploadOptions.t) (w : World) :
  configured w ->
  exists req,
    snd (uploadImage transport getType opts w) = after_request w req
    /\ (forall b, ImageUploadOptions.image opts = OfBlob b ->
          exists filename,
            FormData.getAll "source" (req_body req) = [FormData.File b filename])
    /\ (forall bytes, ImageUploadOptions.image opts = OfBuffer bytes ->
          ImageUploadOptions.name opts = Absent ->
          FormData.getAll "source" (req_body req)
          = [FormData.File
               {| blob_bytes := bytes; blob_type := or_str (getType "image.png") "" |}
               "image.png"])
    /\ (forall bytes n, ImageUploadOptions.image opts = OfBuffer bytes ->
          ImageUploadOptions.name opts = Present (Some n) -> n <> "" ->
          FormData.getAll "source" (req_body req)
          = [FormData.File
               {| blob_bytes := bytes; blob_type := or_str (getType n) "" |} n]).
Proof.
  intros Hc.
  destruct (uploadImage_body transport getType opts w Hc) as (req & Hw & _ & Hb).
  exists req. split; [exact Hw |]. rewrite Hb. cbv zeta.
  split; [| split].
  - intros b Hi. rewrite Hi. eexists. reflexivity.
  - intros bytes Hi Hn. rewrite Hi, Hn. cbn -[new_Blob or_else].
    now rewrite new_Blob_type.
  - intros bytes n Hi Hn Hne. rewrite Hi, Hn.
    cbn -[new_Blob or_else or_str]. rewrite (or_str_some n _ Hne).
    now rewrite new_Blob_type.
Qed.

Lemma uploadImage_source_field_witness :
  exists req,
    snd (uploadImage (answer_with 200 (Some Null)) png_only sample_upload
           sample_world) = after_request sample_world req
    /\ FormData.getAll "source" (req_body req)
       = [FormData.File
            {| blob_bytes := [Byte.x89; Byte.x50]; blob_type := "image/png" |}
            "image.png"].
Proof.
  destruct (uploadImage_source_field (answer_with 200 (Some Null)) png_only
              sample_upload sample_world) as (req & Hw & _ & Hbuf & _).
  - repeat split; reflexivity.
  - exists req. split; [exact Hw |].
    apply (Hbuf [Byte.x89; Byte.x50]); reflexivity.
Defined.

Lemma string_of_Z_round_trip (z : Z) :
  option_map Z.of_int (NilZero.int_of_string (string_of_Z z)) = Some z.
Proof.
  unfold string_of_Z. rewrite NilZero.isi.
  - cbn. now rewrite DecimalZ.of_to.
  - destruct z; cbn; try discriminate.
    intros [= H]. now apply DecimalPos.Unsigned.to_uint_nonnil in H.
  - destruct z; cbn; try discriminate.
    intros [= H]. now apply DecimalPos.Unsigned.to_uint_nonnil in H.
Qed.

(** X16: with credentials set, the [timestamp] field of an upload is the
    decimal numeral of the clock reading: read back as a number it is
    [Date.now()] at the time of the call. *)
Theorem uploadImage_timestamp_reads_back
    (transport : Request -> Result Response) (getType : string -> option string)
    (opts : ImageUploadOptions.t) (w : World) :
  configured w ->
  exists req ts,
    snd (uploadImage transport getType opts w) = after_request w req
    /\ FormData.getAll "timestamp" (req_body req) = [FormData.Text ts]
    /\ option_map Z.of_int (NilZero.int_of_string ts) = Some (clock w).
Proof.
  intros Hc.
  destruct (uploadImage_body transport getType opts w Hc) as (req & Hw & _ & Hb).
  exists req, (string_of_Z (clock w)). split; [exact Hw |].
  split; [rewrite Hb; reflexivity | apply string_of_Z_round_trip].
Qed.

Lemma uploadImage_timestamp_reads_back_witness :
  exists req ts,
    snd (uploadImage (answer_with 200 (Some Null)) png_only sample_upload
           sample_world) = after_request sample_world req
    /\ FormData.getAll "timestamp" (req_body req) = [FormData.Text ts]
    /\ option_map Z.of_int (NilZero.int_of_string ts) = Some 1700000000000%Z.
Proof.
  apply (uploadImage_timestamp_reads_back (answer_with 200 (Some Null)) png_only
           sample_upload sample_world).
  repeat split; reflexivity.
Defined.

(** X17: with credentials set, the body of an upload has exactly the seven
    fields [action], [album_id], [auth_token], [expiration], [source],
    [timestamp], [type], each once and in this order, with [action=upload],
    [type=file] and the configured key as [auth_token]; the request carries
    the configured cookie. *)
Theorem uploadImage_fixed_fields
    (transport : Request -> Result Response) (getType : string -> option string)
    (opts : ImageUploadOptions.t) (w : World) (k : string) :
  configured w ->
  IMGBB_KEY (globals w) = Some k ->
  exists req,
    snd (uploadImage transport getType opts w) = after_request w req
    /\ map fst (req_body req)
       = ["action"; "album_id"; "auth_token"; "expiration"; "source";
          "timestamp"; "type"]
    /\ FormData.getAll "action" (req_body req) = [FormData.Text "upload"]
    /\ FormData.getAll "type" (req_body req) = [FormData.Text "file"]
    /\ FormData.getAll "auth_token" (req_body req) = [FormData.Text k]
    /\ hdr_cookie (req_headers req) = IMGBB_COOKIE (globals w).
Proof.
  intros Hc Hk.
  destruct (uploadImage_body transport getType opts w Hc) as (req & Hw & Hck & Hb).
  exists req. split; [exact Hw |]. rewrite Hb, Hk. cbv zeta.
  repeat split; try reflexivity. exact Hck.
Qed.

Lemma uploadImage_fixed_fields_witness :
  exists req,
    snd (uploadImage (answer_with 200 (Some Null)) png_only sample_upload
           sample_world) = after_request sample_world req
    /\ FormData.getAll "auth_token" (req_body req) = [FormData.Text "k3y"].
Proof.
  destruct (uploadImage_fixed_fields (answer_with 200 (Some Null)) png_only
              sample_upload sample_world "k3y")
    as (req & Hw & _ & _ & _ & Hk & _).
  - repeat split; reflexivity.
  - reflexivity.
  - exists req. split; [exact Hw | exact Hk].
Defined.

(** *** Completeness of the matchers on the shape *)

Section MatcherCompleteness.

Import RegExp.

Lemma exec_from_bol_eq (m : Matcher) (r : list ascii) :
  exec_from (seq bol m) 0 r = m (mkState 0 r None) (fun z => Some z).
Proof.
  destruct r as [| ch r]; cbn.
  - now destruct (m _ _).
  - destruct (m _ _); [reflexivity | apply exec_from_bol_later].
Qed.

Lemma lits_i_step (s : string) :
  forall l, spells_i s l ->
  forall i r cap c,
    lits_i s (mkState i (l ++ r) cap) c = c (mkState (i + List.length l) r cap).
Proof.
  unfold spells_i.
  induction s as [| p s IH]; intros l H i r cap c; cbn in H; inversion H; subst.
  - cbn. unfold empty. now rewrite Nat.add_0_r.
  - cbn. unfold seq, char. cbn. rewrite H2.
    rewrite (IH _ H4). do 2 f_equal. lia.
Qed.

Lemma opt_take (p : ascii -> bool) (ch : ascii) (i : nat) (r : list ascii)
    (cap : option (list ascii)) (c : Continuation) (y : State) :
  p ch = true ->
  c (mkState (S i) r cap) = Some y ->
  opt p (mkState i (ch :: r) cap) c = Some y.
Proof. intros Hp Hc. unfold opt, char. cbn. now rewrite Hp, Hc. Qed.

Lemma opt_skip (p : ascii -> bool) (i : nat) (r : list ascii)
    (cap : option (list ascii)) (c : Continuation) :
  stops p r ->
  opt p (mkState i r cap) c = c (mkState i r cap).
Proof.
  intros Hs. unfold opt, char. cbn.
  destruct r as [| ch r]; [reflexivity |].
  cbn in Hs. now rewrite Hs.
Qed.

Lemma star_on_greedy (p : ascii -> bool) (seg : list ascii) :
  forallb p seg = true ->
  forall i r cap c y,
    stops p r ->
    c (mkState (i + List.length seg) r cap) = Some y ->
    star_on p i (seg ++ r) cap c = Some y.
Proof.
  induction seg as [| a seg IH]; intros Hall i r cap c y Hs Hc.
  - cbn in *. rewrite Nat.add_0_r in Hc.
    destruct r as [| ch r]; cbn; [exact Hc |].
    cbn in Hs. now rewrite Hs.
  - cbn in Hall. apply andb_prop in Hall as (Ha & Hall).
    cbn. rewrite Ha.
    rewrite (IH Hall (S i) r cap c y Hs); [reflexivity |].
    now replace (S i + List.length seg) with (i + List.length (a :: seg))
      by (cbn [List.length]; lia).
Qed.

Lemma group_plus_step (p : ascii -> bool) (seg : list ascii) :
  seg <> [] ->
  forallb p seg = true ->
  forall i r cap c y,
    stops p r ->
    c (mkState (i + List.length seg) r (Some seg)) = Some y ->
    group (plus p) (mkState i (seg ++ r) cap) c = Some y.
Proof.
  intros Hne Hall i r cap c y Hs Hc.
  destruct seg as [| a seg]; [contradiction |].
  cbn in Hall. apply andb_prop in Hall as (Ha & Hall).
  unfold group, plus, seq, char, star. cbn [rest endIndex capture1 app].
  rewrite Ha.
  apply (star_on_greedy p seg Hall (S i) r cap); [exact Hs |].
  cbn [rest endIndex capture1].
  replace (S i + List.length seg - i) with (List.length (a :: seg) + 0)
    by (cbn [List.length]; lia).
  change (a :: seg ++ r)%list with ((a :: seg) ++ r)%list.
  rewrite firstn_app_2. cbn [firstn]. rewrite app_nil_r.
  now replace (S i + List.length seg) with (i + List.length (a :: seg))
    by (cbn [List.length]; lia).
Qed.

Lemma colon_is_not_s (ch : ascii) :
  lit_i ":" ch = true -> lit_i "s" ch = false.
Proof.
  destruct ch as [[] [] [] [] [] [] [] []]; vm_compute; congruence.
Qed.

Lemma slash_is_not_word (ch : ascii) :
  lit_i "/" ch = true -> word ch = false.
Proof.
  destruct ch as [[] [] [] [] [] [] [] []]; vm_compute; congruence.
Qed.

End MatcherCompleteness.

Lemma list_ascii_of_string_app (a b : string) :
  list_ascii_of_string (a ++ b)
  = (list_ascii_of_string a ++ list_ascii_of_string b)%list.
Proof.
  induction a as [| ch a IH]; cbn; [reflexivity |].
  now rewrite IH.
Qed.

(** On an address of the shape the pattern matches from index 0 and
    captures the segment. *)
Lemma cdn_pattern_complete (url id : string) :
  cdn_shape url id ->
  exists y,
    cdn_pattern (RegExp.mkState 0 (list_ascii_of_string url) None)
      (fun z => Some z) = Some y
    /\ RegExp.capture1 y = Some (list_ascii_of_string id).
Proof.
  intros (http & s & sep & d1 & ibb & d2 & co & seg & slash & tail
          & Hurl & Hhttp & Hs & Hsep & Hd1 & Hibb & Hd2 & Hco & Hne & Hw
          & Hslash & ->).
  rewrite Hurl, list_ascii_of_string_of_list_ascii.
  assert (Hcolon : stops (RegExp.lit_i "s")
                     (sep ++ d1 :: ibb ++ d2 :: co ++ seg ++ slash ++ tail)).
  { unfold spells_i in Hsep. cbn in Hsep. inversion Hsep; subst.
    cbn. now apply colon_is_not_s. }
  assert (Hstop : stops RegExp.word (slash ++ tail)).
  { unfold spells_i in Hslash. cbn in Hslash. inversion Hslash; subst.
    cbn. now apply slash_is_not_word. }
  unfold cdn_pattern. cbn [RegExp.seqs]. unfold RegExp.seq, RegExp.bol.
  cbn [RegExp.endIndex Nat.eqb].
  rewrite (lits_i_step "http" http Hhttp).
  match goal with
  | |- exists y, RegExp.opt _ _ ?k = Some y /\ _ =>
      assert (Hrest : forall i,
                 exists y,
                   k (RegExp.mkState i
                        (sep ++ d1 :: ibb ++ d2 :: co ++ seg ++ slash ++ tail) None)
                   = Some y
                   /\ RegExp.capture1 y = Some seg)
  end.
  { intros i.
    rewrite (lits_i_step "://i" sep Hsep).
    unfold RegExp.char at 1. cbn [RegExp.rest RegExp.endIndex RegExp.capture1].
    rewrite Hd1.
    rewrite (lits_i_step "ibb" ibb Hibb).
    unfold RegExp.char at 1. cbn [RegExp.rest RegExp.endIndex RegExp.capture1].
    rewrite Hd2.
    rewrite (lits_i_step "co/" co Hco).
    eexists. split.
    - apply (group_plus_step RegExp.word seg Hne Hw); [exact Hstop |].
      rewrite (lits_i_step "/" slash Hslash).
      unfold RegExp.empty. reflexivity.
    - reflexivity. }
  destruct Hs as [-> | Hs].
  - cbn [app]. rewrite (opt_skip _ _ _ _ _ Hcolon).
    apply Hrest.
  - unfold spells_i in Hs. cbn in Hs.
    inversion Hs as [| p0 x l0 l1 Hx Hnil]; subst. inversion Hnil; subst.
    cbn [app].
    destruct (Hrest (S (0 + List.length http))) as (y & Hy & Hcap).
    exists y. split; [| exact Hcap].
    now apply opt_take.
Qed.

Lemma getImageIdByUrl_complete (url id : string) :
  cdn_shape url id -> getImageIdByUrl (OfString url) = Some id.
Proof.
  intros Hshape.
  destruct (cdn_pattern_complete url id Hshape) as (y & Hy & Hcap).
  destruct Hshape as (http & s & sep & d1 & ibb & d2 & co & seg & slash & tail
                      & Hurl & Hhttp & _ & _ & _ & _ & _ & _ & Hne & _ & _ & Hid).
  assert (Hu : url <> "").
  { intros ->. cbn in Hurl. unfold spells_i in Hhttp. cbn in Hhttp.
    inversion Hhttp; subst. discriminate. }
  assert (Hi : id <> "").
  { intros ->. destruct seg; [contradiction | discriminate]. }
  unfold getImageIdByUrl. rewrite (truthy_some url Hu). cbn [negb].
  unfold RegExp.match_group1.
  change cdn_pattern
    with (RegExp.seq RegExp.bol
            (RegExp.seqs
               [ RegExp.lits_i "http"; RegExp.opt (RegExp.lit_i "s");
                 RegExp.lits_i "://i"; RegExp.char RegExp.dot;
                 RegExp.lits_i "ibb"; RegExp.char RegExp.dot;
                 RegExp.lits_i "co/"; RegExp.group (RegExp.plus RegExp.word);
                 RegExp.lits_i "/" ])) at 1.
  rewrite exec_from_bol_eq.
  match goal with
  | |- context [RegExp.seqs ?l ?st ?k] =>
      assert (Hy' : RegExp.seqs l st k = Some y) by exact Hy; rewrite Hy'
  end.
  rewrite Hcap. cbn [option_map].
  rewrite string_of_list_ascii_of_string.
  now apply or_else_some.
Qed.

(** X18: [getImageIdByUrl] returns [id] for exactly the addresses of the
    shape of its pattern (http or https in any case, [i], any character,
    [ibb], any character, [co], "/", a run of word characters, "/"), with
    [id] the run of word characters; a user object is treated as its
    [image] address. *)
Theorem getImageIdByUrl_exactly_the_shape (url id : string) :
  (getImageIdByUrl (OfString url) = Some id <-> cdn_shape url id)
  /\ (getImageIdByUrl (OfUser (Some url)) = Some id <-> cdn_shape url id).
Proof.
  assert (Hs : getImageIdByUrl (OfString url) = Some id <-> cdn_shape url id).
  { split; [| apply getImageIdByUrl_complete].
    intros H. destruct (getImageIdByUrl_some_shape _ _ H) as (url' & Hu & _ & Hsh).
    destruct Hu as [[= <-] | [=]]. exact Hsh. }
  split; [exact Hs | exact Hs].
Qed.

(** X19: an identifier returned by [getImageIdByUrl] is never empty and
    consists of letters, digits and underscores only. *)
Theorem getImageIdByUrl_id_is_a_word (u : UrlOrUser) (id : string) :
  getImageIdByUrl u = Some id ->
  id <> "" /\ forallb RegExp.word (list_ascii_of_string id) = true.
Proof.
  intros H.
  destruct (getImageIdByUrl_some_shape u id H) as (url & _ & _ & Hsh).
  destruct Hsh as (http & s & sep & d1 & ibb & d2 & co & seg & slash & tail
                   & _ & _ & _ & _ & _ & _ & _ & _ & Hne & Hw & _ & ->).
  split.
  - destruct seg; [contradiction | discriminate].
  - now rewrite list_ascii_of_string_of_list_ascii.
Qed.

Lemma getImageIdByUrl_id_is_a_word_witness :
  "XYZ789" <> ""
  /\ forallb RegExp.word (list_ascii_of_string "XYZ789") = true.
Proof.
  apply (getImageIdByUrl_id_is_a_word
           (OfUser (Some "http://i.ibb.co/XYZ789/pic.png")) "XYZ789").
  vm_compute. reflexivity.
Defined.

Ltac spell := solve [unfold spells_i; cbn; repeat constructor].

(** X20: for every non-empty run [seg] of word characters and every
    [tail], the address [https://i.ibb.co/<seg>/<tail>] gives [seg]; so do
    the same address over http and the one written in capitals. *)
Theorem getImageIdByUrl_cdn_address (seg tail : string) :
  seg <> "" ->
  forallb RegExp.word (list_ascii_of_string seg) = true ->
  getImageIdByUrl (OfString ("https://i.ibb.co/" ++ seg ++ "/" ++ tail)) = Some seg
  /\ getImageIdByUrl (OfString ("http://i.ibb.co/" ++ seg ++ "/" ++ tail)) = Some seg
  /\ getImageIdByUrl (OfString ("HTTPS://I.IBB.CO/" ++ seg ++ "/" ++ tail)) = Some seg.
Proof.
  intros Hne Hw.
  assert (Hl : list_ascii_of_string seg <> []) by (destruct seg; [contradiction | discriminate]).
  assert (Hid : seg = string_of_list_ascii (list_ascii_of_string seg))
    by now rewrite string_of_list_ascii_of_string.
  split; [| split]; apply getImageIdByUrl_complete.
  - exists (list_ascii_of_string "http"), (list_ascii_of_string "s"),
      (list_ascii_of_string "://i"), "."%char, (list_ascii_of_string "ibb"),
      "."%char, (list_ascii_of_string "co/"), (list_ascii_of_string seg),
      (list_ascii_of_string "/"), (list_ascii_of_string tail).
    split; [cbn; now rewrite !list_ascii_of_string_app |].
    repeat split; try spell; auto.
  - exists (list_ascii_of_string "http"), [],
      (list_ascii_of_string "://i"), "."%char, (list_ascii_of_string "ibb"),
      "."%char, (list_ascii_of_string "co/"), (list_ascii_of_string seg),
      (list_ascii_of_string "/"), (list_ascii_of_string tail).
    split; [cbn; now rewrite !list_ascii_of_string_app |].
    repeat split; try spell; auto.
  - exists (list_ascii_of_string "HTTP"), (list_ascii_of_string "S"),
      (list_ascii_of_string "://I"), "."%char, (list_ascii_of_string "IBB"),
      "."%char, (list_ascii_of_string "CO/"), (list_ascii_of_string seg),
      (list_ascii_of_string "/"), (list_ascii_of_string tail).
    split; [cbn; now rewrite !list_ascii_of_string_app |].
    repeat split; try spell; auto.
Qed.

Lemma getImageIdByUrl_cdn_address_witness :
  getImageIdByUrl (OfString "https://i.ibb.co/a_1/") = Some "a_1".
Proof.
  destruct (getImageIdByUrl_cdn_address "a_1" "") as (H & _).
  - discriminate.
  - reflexivity.
  - exact H.
Defined.

Ltac invert_spelling :=
  repeat match goal with
         | H : spells_i _ _ |- _ => unfold spells_i in H; cbn in H
         | H : Forall2 _ (_ :: _) _ |- _ => inversion H; clear H; subst
         | H : Forall2 _ [] _ |- _ => inversion H; clear H; subst
         end.

(** X21: the segment must be closed by a slash: for every run [seg] of
    word characters (the empty one included), the address
    [https://i.ibb.co/<seg>] with nothing after it gives [null]. *)
Theorem getImageIdByUrl_needs_closing_slash (seg : string) :
  forallb RegExp.word (list_ascii_of_string seg) = true ->
  getImageIdByUrl (OfString ("https://i.ibb.co/" ++ seg)) = None.
Proof.
  intros Hw.
  destruct (getImageIdByUrl (OfString ("https://i.ibb.co/" ++ seg)))
    as [id |] eqn:E; [exfalso | reflexivity].
  destruct (getImageIdByUrl_some_shape _ _ E) as (url & Hu & _ & Hsh).
  destruct Hu as [[= <-] | [=]].
  destruct Hsh as (http & s & sep & d1 & ibb & d2 & co & seg' & slash & tail
                   & Hurl & Hhttp & Hs & Hsep & _ & Hibb & _ & Hco & _ & _
                   & Hslash & _).
  cbn in Hurl.
  destruct Hs as [-> | Hs]; invert_spelling; cbn in Hurl.
  - injection Hurl as <- <- <- <- <- <- <- <- <- <- <- <- <- <- <- <- Hrest.
    match goal with
    | H : RegExp.lit_i ":" "s" = true |- _ => vm_compute in H; discriminate H
    end.
  - injection Hurl as <- <- <- <- <- <- <- <- <- <- <- <- <- <- <- <- <- Hrest.
    rewrite Hrest, forallb_app in Hw. cbn in Hw.
    apply andb_prop in Hw as (_ & Hw). apply andb_prop in Hw as (Hw & _).
    match goal with
    | H : RegExp.lit_i "/" ?c = true |- _ =>
        apply slash_is_not_word in H; congruence
    end.
Qed.

Lemma getImageIdByUrl_needs_closing_slash_witness :
  getImageIdByUrl (OfString "https://i.ibb.co/XYZ789") = None.
Proof.
  apply (getImageIdByUrl_needs_closing_slash "XYZ789"). reflexivity.
Defined.
